(** * Google Maps route extraction: the locator helpers and the run of [main]

    A shallow embedding of [PartB_Automation/maps_route_instructions.py].

    The browser is a mock page layer: a [World] fixes, for every tick of a
    logical clock, the snapshot of the page the script observes and whether
    the driver or file operation issued at that tick raises.  The script is
    a computation in a state-and-exception monad over a [State] holding the
    clock, the browser session, the console and call history, and the files
    written.

    Conventions of the model:
    - one poll of a wait sees one snapshot of the page, and reading a
      snapshot inside a wait or the loop over the step elements
      ([find_elements], [is_displayed], [is_enabled], [text],
      [current_url]) does not raise;
    - every other driver or file call, the [driver.find_elements] that
      follows the wait for the steps included, takes one tick and may raise
      any exception the world chooses; [driver.quit()] alone always
      succeeds;
    - a timeout is the number of sleeps between polls it leaves room for
      ([polls]); a wait always polls at least once;
    - values keep their Python truthiness ([Truthy]), and a [_locate]
      callback returns a value or the constant [False] ([or_false]);
    - [save_screenshot] asks the browser for the picture and then writes
      the file; the write is a call of its own, whose failure with an
      [OSError] is answered with [False] and not raised; the picture
      written is taken to have the size of the window;
    - a cell checks the strings it is given as openpyxl does: it keeps the
      first 32767 characters and refuses illegal control characters. *)

From stdpp Require Import gmap strings list.
From Stdlib Require Import ZArith Ascii String DecimalString.

(** ** Text

    A [str] is modelled as a [string] of code points U+0000..U+00FF. *)

Module Str.

(** [str.isspace] on one code point. *)
Definition isspace (c : ascii) : bool :=
  let n := nat_of_ascii c in
  (((9 <=? n) && (n <=? 13)) || ((28 <=? n) && (n <=? 32))
   || (n =? 133) || (n =? 160))%nat.

Fixpoint lstrip (s : string) : string :=
  match s with
  | EmptyString => EmptyString
  | String c rest => if isspace c then lstrip rest else s
  end.

Fixpoint rstrip (s : string) : string :=
  match s with
  | EmptyString => EmptyString
  | String c rest =>
      match rstrip rest with
      | EmptyString => if isspace c then EmptyString else String c EmptyString
      | kept => String c kept
      end
  end.

(** [s.strip()] *)
Definition strip (s : string) : string := rstrip (lstrip s).

Definition lower_char (c : ascii) : ascii :=
  let n := nat_of_ascii c in
  if (((65 <=? n) && (n <=? 90))
      || ((192 <=? n) && (n <=? 222) && negb (n =? 215)))%nat
  then ascii_of_nat (n + 32) else c.

(** [s.lower()] *)
Fixpoint lower (s : string) : string :=
  match s with
  | EmptyString => EmptyString
  | String c rest => String (lower_char c) (lower rest)
  end.

(** [needle in hay] *)
Fixpoint contains (needle hay : string) : bool :=
  String.prefix needle hay
  || match hay with
     | EmptyString => false
     | String _ rest => contains needle rest
     end.

(** [s[:n]] *)
Fixpoint slice_to (n : N) (s : string) : string :=
  match s with
  | EmptyString => EmptyString
  | String c rest =>
      if (n =? 0)%N then EmptyString else String c (slice_to (N.pred n) rest)
  end.

(** [str(n)] for a non-negative [int]. *)
Definition of_nat (n : nat) : string :=
  NilEmpty.string_of_uint (Nat.to_uint n).

End Str.

(** ** Python values

    [bool(v)], as [WebDriverWait.until] and [if not route_cards] use it. *)

Class Truthy (A : Type) := truth : A → bool.

#[export] Instance bool_truthy : Truthy bool := λ b, b.
#[export] Instance list_truthy {A} : Truthy (list A) :=
  λ l, match l with [] => false | _ :: _ => true end.
#[export] Instance str_truthy : Truthy string :=
  λ s, match s with EmptyString => false | String _ _ => true end.

(** The result of a [_locate] callback: a value, or the constant [False]. *)
Inductive or_false (A : Type) : Type :=
| Val (a : A)
| PyFalse.
Arguments Val {A} a.
Arguments PyFalse {A}.

#[export] Instance or_false_truthy `{Truthy A} : Truthy (or_false A) :=
  λ v, match v with Val a => truth a | PyFalse => false end.

(** ** Exceptions

    [TimeoutException] derives from [WebDriverException], which derives from
    [Exception]; so does [OSError], which selenium catches around the file
    write of a screenshot. *)

Inductive exn_class :=
  TimeoutException | WebDriverException | OSError | Exception.

Record exn := Exn { exn_cls : exn_class; exn_msg : string }.

Definition issubclass (c d : exn_class) : bool :=
  match c, d with
  | TimeoutException, _ => true
  | WebDriverException, (WebDriverException | Exception) => true
  | OSError, (OSError | Exception) => true
  | Exception, Exception => true
  | _, _ => false
  end.

Definition isinstance (e : exn) (c : exn_class) : bool :=
  issubclass (exn_cls e) c.

(** What a computation ends with: a value, or an exception. *)
Inductive result (A : Type) : Type :=
| Returns (a : A)
| Raises (e : exn).
Arguments Returns {A} a.
Arguments Raises {A} e.

#[export] Instance result_ret : MRet result := λ A a, Returns a.

#[export] Instance result_bind : MBind result := λ A B f r,
  match r with
  | Returns a => f a
  | Raises e => Raises e
  end.

(** ** The page *)

Inductive By := CSS_SELECTOR | XPATH.

Definition locator : Type := By * string.

(** A [WebElement] is an opaque handle. *)
Definition element : Type := nat.

#[export] Instance element_truthy : Truthy element := λ _, true.

Record Page := {
  find_elements : locator → list element;
  is_displayed : element → bool;
  is_enabled : element → bool;
  text : element → string;
  current_url : string;
  content_size : Z * Z            (* Page.getLayoutMetrics: contentSize *)
}.

(** ** Spreadsheets and files *)

Inductive cell := CInt (n : Z) | CStr (s : string).

Record worksheet := { title : string; rows : list (list cell) }.

Record workbook := { sheets : list worksheet; active : nat }.

(** [Workbook()] *)
Definition Workbook : workbook :=
  {| sheets := [ {| title := "Sheet"; rows := [] |} ]; active := 0 |}.

Definition on_active (f : worksheet → worksheet) (wb : workbook) : workbook :=
  {| sheets := alter f (active wb) (sheets wb); active := active wb |}.

(** [workbook.active.title = t] *)
Definition set_title (t : string) : workbook → workbook :=
  on_active (λ sh, {| title := t; rows := rows sh |}).

(** The characters a cell may not hold: U+0000..U+0008, U+000B, U+000C and
    U+000E..U+001F. *)
Definition illegal_character (c : ascii) : bool :=
  let n := nat_of_ascii c in
  ((n <=? 8) || ((11 <=? n) && (n <=? 12)) || ((14 <=? n) && (n <=? 31)))%nat.

Fixpoint has_illegal_character (s : string) : bool :=
  match s with
  | EmptyString => false
  | String c rest => illegal_character c || has_illegal_character rest
  end.

(** [IllegalCharacterError(f"{value} cannot be used in worksheets.")] *)
Definition IllegalCharacterError (value : string) : exn :=
  Exn Exception (value ++ " cannot be used in worksheets.").

(** What a cell does with a string it is given: it keeps the first 32767
    characters, and refuses them when one is illegal. *)
Definition check_string (value : string) : result string :=
  let value := Str.slice_to 32767 value in
  if has_illegal_character value then Raises (IllegalCharacterError value)
  else Returns value.

(** The cell made of a value.  ([CStr s] is a cell whose value is the
    string [s]; whether the sheet reads it as text, formula or error code
    follows from [s] and is not kept apart.) *)
Definition bind_value (value : cell) : result cell :=
  match value with
  | CInt n => Returns (CInt n)
  | CStr s => s' ← check_string s; mret (CStr s')
  end.

Fixpoint bind_row (row : list cell) : result (list cell) :=
  match row with
  | [] => mret []
  | value :: rest =>
      c ← bind_value value;
      cells ← bind_row rest;
      mret (c :: cells)
  end.

(** [workbook.active.append(row)] *)
Definition append (row : list cell) (wb : workbook) : result workbook :=
  cells ← bind_row row;
  mret (on_active
          (λ sh, {| title := title sh; rows := rows sh ++ [cells] |}) wb).

Inductive file :=
| Xlsx (wb : workbook)
| Png (size : Z * Z).

(** ** Driver and file operations *)

Inductive keys := Text (s : string) | ENTER.

Inductive WebDriver := ChromeDriver (arguments : list string).

Inductive action :=
| NewChrome (arguments : list string)
| Get (url : string)
| Click (e : element)
| Clear (e : element)
| SendKeys (e : element) (k : keys)
| ExecuteCdpCmd (cmd : string)
| SetWindowSize (size : Z * Z)
| SaveScreenshot (path : string)
| WorkbookSave (wb : workbook) (path : string)
| FindElements (l : locator)
| WritePng (path : string)
| Quit.

Inductive event :=
| Printed (line : string)
| Called (a : action).

Inductive session_state := NotStarted | Active | Ended.

(** ** World and state *)

Record World := {
  page : nat → Page;                       (* the page seen at each tick *)
  raises : nat → action → option exn;      (* the call at a tick fails *)
  polls : nat → nat;                       (* sleeps a timeout leaves room for *)
  base_dir : string                        (* directory of the script *)
}.

Record State := {
  clock : nat;
  session : session_state;
  driver : option WebDriver;               (* the local [driver] of [main] *)
  window_size : Z * Z;
  files : gmap string file;
  log : list event
}.

Definition tick (s : State) : State :=
  {| clock := S (clock s); session := session s; driver := driver s;
     window_size := window_size s; files := files s; log := log s |}.

Definition emit (ev : event) (s : State) : State :=
  {| clock := clock s; session := session s; driver := driver s;
     window_size := window_size s; files := files s; log := log s ++ [ev] |}.

Definition set_session (st : session_state) (s : State) : State :=
  {| clock := clock s; session := st; driver := driver s;
     window_size := window_size s; files := files s; log := log s |}.

Definition set_driver (d : option WebDriver) (s : State) : State :=
  {| clock := clock s; session := session s; driver := d;
     window_size := window_size s; files := files s; log := log s |}.

Definition set_window (size : Z * Z) (s : State) : State :=
  {| clock := clock s; session := session s; driver := driver s;
     window_size := size; files := files s; log := log s |}.

Definition write_file (path : string) (f : file) (s : State) : State :=
  {| clock := clock s; session := session s; driver := driver s;
     window_size := window_size s; files := <[path := f]> (files s);
     log := log s |}.

(** What a successful call changes. *)
Definition effect (a : action) (s : State) : State :=
  match a with
  | NewChrome _ => set_session Active s
  | SetWindowSize size => set_window size s
  | WritePng path => write_file path (Png (window_size s)) s
  | WorkbookSave wb path => write_file path (Xlsx wb) s
  | Quit => set_session Ended s
  | _ => s
  end.

(** ** The monad of the script *)

Definition M (A : Type) : Type := State → result A * State.

#[export] Instance M_ret : MRet M := λ A a s, (Returns a, s).

#[export] Instance M_bind : MBind M := λ A B f m s,
  match m s with
  | (Returns a, s') => f a s'
  | (Raises e, s') => (Raises e, s')
  end.

Definition raise {A} (e : exn) : M A := λ s, (Raises e, s).

Definition print (line : string) : M unit :=
  λ s, (Returns tt, emit (Printed line) s).

(** [try: body / except c1: h1 / except c2: h2 ...]: the first clause whose
    class the exception is an instance of handles it. *)
Definition try_except {A} (body : M A) (clauses : list (exn_class * (exn → M A)))
  : M A :=
  λ s, match body s with
       | (Returns a, s') => (Returns a, s')
       | (Raises e, s') =>
           match find (λ cl, isinstance e cl.1) clauses with
           | Some cl => cl.2 e s'
           | None => (Raises e, s')
           end
       end.

(** [try: body / finally: cleanup] *)
Definition try_finally {A} (body : M A) (cleanup : M unit) : M A :=
  λ s, match body s with
       | (r, s') =>
           match cleanup s' with
           | (Returns _, s'') => (r, s'')
           | (Raises e, s'') => (Raises e, s'')
           end
       end.

(** ** The script *)

Section Script.

Variable w : World.

(** A driver or file call: recorded, one tick long, and failing when the
    world says so. *)
Definition act (a : action) : M unit :=
  λ s, let s' := tick (emit (Called a) s) in
       match raises w (clock s) a with
       | Some e => (Raises e, s')
       | None => (Returns tt, effect a s')
       end.

(** Reading the page as it is now. *)
Definition observe {A} (f : Page → A) : M A :=
  λ s, (Returns (f (page w (clock s))), s).

(** [WebDriverWait(driver, timeout).until(method)]: evaluate, return a
    truthy value, otherwise sleep one poll interval and try again until the
    deadline has passed. *)
Fixpoint until_from {A} `{Truthy A} (method : Page → A) (sleeps : nat)
  (s : State) {struct sleeps} : result A * State :=
  let value := method (page w (clock s)) in
  if truth value then (Returns value, s)
  else match sleeps with
       | 0 => (Raises (Exn TimeoutException ""), s)
       | S sleeps' => until_from method sleeps' (tick s)
       end.

Definition until {A} `{Truthy A} (timeout : nat) (method : Page → A) : M A :=
  until_from method (polls w timeout).

(** *** Element methods, on what a wait returned *)

Definition no_attribute {A} (name : string) : M A :=
  raise (Exn Exception ("'bool' object has no attribute '" ++ name ++ "'")).

Definition click (v : or_false element) : M unit :=
  match v with Val e => act (Click e) | PyFalse => no_attribute "click" end.

Definition clear (v : or_false element) : M unit :=
  match v with Val e => act (Clear e) | PyFalse => no_attribute "clear" end.

Definition send_keys (v : or_false element) (k : keys) : M unit :=
  match v with
  | Val e => act (SendKeys e k)
  | PyFalse => no_attribute "send_keys"
  end.

(** [v[i]] *)
Definition getitem (v : or_false (list element)) (i : nat) : M element :=
  match v with
  | Val l => match l !! i with
             | Some e => mret e
             | None => raise (Exn Exception "list index out of range")
             end
  | PyFalse => raise (Exn Exception "'bool' object is not subscriptable")
  end.

(** *** [wait_for_any_element] *)

(** its [_locate] *)
Fixpoint locate_first (drv : Page) (locators : list locator)
  : or_false element :=
  match locators with
  | [] => PyFalse
  | locator :: rest =>
      match find_elements drv locator with
      | e :: _ => Val e                     (* elements[0] *)
      | [] => locate_first drv rest
      end
  end.

Definition wait_for_any_element (driver : WebDriver)
  (locators : list locator) (timeout : nat) : M (or_false element) :=
  until timeout (λ drv, locate_first drv locators).

(** *** [wait_for_any_clickable_element] *)

Fixpoint first_clickable (drv : Page) (elements : list element)
  : option element :=
  match elements with
  | [] => None
  | e :: rest =>
      if is_displayed drv e && is_enabled drv e then Some e
      else first_clickable drv rest
  end.

(** its [_locate] *)
Fixpoint locate_first_clickable (drv : Page) (locators : list locator)
  : or_false element :=
  match locators with
  | [] => PyFalse
  | locator :: rest =>
      match first_clickable drv (find_elements drv locator) with
      | Some e => Val e
      | None => locate_first_clickable drv rest
      end
  end.

Definition wait_for_any_clickable_element (driver : WebDriver)
  (locators : list locator) (timeout : nat) : M (or_false element) :=
  until timeout (λ drv, locate_first_clickable drv locators).

(** *** [wait_for_any_elements] *)

(** its [_locate] *)
Fixpoint locate_all (drv : Page) (locators : list locator)
  : or_false (list element) :=
  match locators with
  | [] => PyFalse
  | locator :: rest =>
      let elements := find_elements drv locator in
      if truth elements then Val elements else locate_all drv rest
  end.

Definition wait_for_any_elements (driver : WebDriver)
  (locators : list locator) (timeout : nat) : M (or_false (list element)) :=
  until timeout (λ drv, locate_all drv locators).

(** *** [try_click_optional] *)

Definition try_click_optional (driver : WebDriver)
  (locators : list locator) (timeout : nat) : M bool :=
  try_except
    (element ← wait_for_any_clickable_element driver locators timeout;
     click element;;
     mret true)
    [ (TimeoutException, λ _, mret false) ].

(** *** [save_instructions_to_excel] *)

(** [for index, text in enumerate(instructions, start=index)] *)
Fixpoint append_instructions (index : Z) (instructions : list string)
  (wb : workbook) : result workbook :=
  match instructions with
  | [] => mret wb
  | text :: rest =>
      wb' ← append [CInt index; CStr text] wb;
      append_instructions (index + 1) rest wb'
  end.

(** Lines 68-74: the workbook that is to be saved. *)
Definition instructions_workbook (instructions : list string)
  : result workbook :=
  let workbook := Workbook in
  let workbook := set_title "Driving Instructions" workbook in
  workbook ← append [CStr "Step Number"; CStr "Instruction Text"] workbook;
  append_instructions 1 instructions workbook.

(** A computation that touches no state. *)
Definition lift {A} (r : result A) : M A := λ s, (r, s).

Definition save_instructions_to_excel (instructions : list string)
  (file_path : string) : M unit :=
  workbook ← lift (instructions_workbook instructions);
  act (WorkbookSave workbook file_path).

(** *** [save_full_page_screenshot] *)

Definition execute_cdp_cmd (cmd : string) : M (Z * Z) :=
  metrics ← observe content_size;
  act (ExecuteCdpCmd cmd);;
  mret metrics.

(** [driver.save_screenshot(filename)]: the picture is asked of the browser,
    then written to the file; a write that fails with an [OSError] is
    answered with [False], not raised. *)
Definition save_screenshot (filename : string) : M bool :=
  act (SaveScreenshot filename);;
  try_except
    (act (WritePng filename);; mret true)
    [ (OSError, λ _, mret false) ].

Definition save_full_page_screenshot (driver : WebDriver)
  (file_path : string) : M unit :=
  metrics ← execute_cdp_cmd "Page.getLayoutMetrics";
  let width := metrics.1 in
  let height := metrics.2 in
  act (SetWindowSize (width, height));;
  save_screenshot file_path;;
  mret tt.

End Script.

(** ** [main] *)

Definition consent_buttons : list locator :=
  [ (CSS_SELECTOR, "button[aria-label='Accept all']");
    (CSS_SELECTOR, "button[aria-label='I agree']") ].

Definition directions_buttons : list locator :=
  [ (CSS_SELECTOR, "button[data-value='Directions']");
    (CSS_SELECTOR, "button[aria-label='Directions']");
    (XPATH, "//button[@data-value='Directions']") ].

Definition start_inputs : list locator :=
  [ (CSS_SELECTOR, "input[aria-label^='Choose starting point']");
    (CSS_SELECTOR, "input[aria-label^='Starting point']");
    (CSS_SELECTOR, "input.tactile-searchbox-input[aria-label*='starting']");
    (CSS_SELECTOR, "input.tactile-searchbox-input") ].

Definition destination_inputs : list locator :=
  [ (CSS_SELECTOR, "input[aria-label^='Choose destination']");
    (CSS_SELECTOR, "input[aria-label^='Destination']");
    (CSS_SELECTOR, "input.tactile-searchbox-input[aria-label*='destination']");
    (CSS_SELECTOR, "input.tactile-searchbox-input") ].

Definition route_cards_locator : locator :=
  (CSS_SELECTOR, "div[data-trip-index]").

Definition steps_toggles : list locator :=
  [ (CSS_SELECTOR, "button[data-value='Steps']");
    (CSS_SELECTOR, "button[aria-label='Steps']");
    (CSS_SELECTOR, "button[data-value='Details']");
    (CSS_SELECTOR, "button[aria-label='Details']") ].

Definition step_locator : locator := (CSS_SELECTOR, "div[data-step-index]").

Definition excel_name : string := "driving_instructions.xlsx".
Definition screenshot_name : string := "route_screenshot.png".

(** [base / name], as a string *)
Definition path_join (base name : string) : string := base ++ "/" ++ name.

(** The labels that are not instructions. *)
Definition labels : gset string := {[ "directions"; "steps" ]}.

(** The loop over [step_elements] (lines 188-195); [instructions] is the
    list built so far. *)
Fixpoint capture (drv : Page) (step_elements : list element)
  (instructions : list string) : list string :=
  match step_elements with
  | [] => instructions
  | element :: rest =>
      let text := Str.strip (text drv element) in
      if negb (truth text) then capture drv rest instructions
      else if bool_decide (Str.lower text ∈ labels)
           then capture drv rest instructions
           else capture drv rest (instructions ++ [text])
  end.

Section Main.

Variable w : World.

Definition assign_driver (d : option WebDriver) : M unit :=
  λ s, (Returns tt, set_driver d s).

(** [webdriver.Chrome(options=options)] *)
Definition Chrome (options : list string) : M WebDriver :=
  act w (NewChrome options);;
  mret (ChromeDriver options).

(** [if not route_cards: raise Exception(...)] (lines 162-163) *)
Definition routes_guard (route_cards : or_false (list element)) : M unit :=
  if negb (truth route_cards)
  then raise (Exn Exception "No routes were found for the provided locations.")
  else mret tt.

(** Lines 98-155 of the [try] block: from the new session to the
    directions view. *)
Definition main_open_directions (options : list string) : M WebDriver :=
  driver ← Chrome options;
  assign_driver (Some driver);;
  let wait := until w 30 in

  print "Opening Google Maps...";;
  act w (Get "https://maps.google.com");;

  try_click_optional w driver consent_buttons 5;;

  directions_button ←
    wait_for_any_clickable_element w driver directions_buttons 25;
  click w directions_button;;
  print "Clicked Directions.";;

  start_input ← wait_for_any_element w driver start_inputs 25;
  clear w start_input;;
  send_keys w start_input (Text "Koramangala, Bangalore");;
  send_keys w start_input ENTER;;
  print "Entered starting location.";;

  destination_input ← wait_for_any_element w driver destination_inputs 25;
  clear w destination_input;;
  send_keys w destination_input (Text "91 Springboard, Vikhroli");;
  send_keys w destination_input ENTER;;
  print "Entered destination.";;

  wait (λ drv, Str.contains "/dir/" (current_url drv));;
  mret driver.

(** Lines 98-166 of the [try] block: up to the click on the first route
    card. *)
Definition main_select_route (options : list string) : M WebDriver :=
  driver ← main_open_directions options;

  route_cards ← wait_for_any_elements w driver [route_cards_locator] 30;
  routes_guard route_cards;;

  first_card ← getitem route_cards 0;
  click w (Val first_card);;
  print "Selected first available route.";;
  mret driver.

(** [driver.find_elements] outside a wait: a driver call of its
    own, which sees the page as it is when the call ends. *)
Definition driver_find_elements (l : locator) : M (list element) :=
  act w (FindElements l);;
  observe w (λ drv, find_elements drv l).

(** Lines 179-186: the wait for the steps, or the empty list. *)
Definition main_step_elements (driver : WebDriver) : M (list element) :=
  try_except
    (until w 60 (λ drv, find_elements drv step_locator);;
     driver_find_elements step_locator)
    [ (TimeoutException,
       λ _, print "No step elements found after waiting. Proceeding with empty list.";;
            mret []) ].

(** Lines 168-213 of the [try] block: from the optional steps toggle to
    [return 0]. *)
Definition main_capture (driver : WebDriver) : M Z :=
  try_click_optional w driver steps_toggles 5;;

  step_elements ← main_step_elements driver;

  instructions ← observe w (λ drv, capture drv step_elements []);

  (if negb (truth instructions)
   then print "No step-by-step instructions were found."
   else print ("Captured " ++ Str.of_nat (List.length instructions)
               ++ " instructions."));;

  let excel_path := path_join (base_dir w) excel_name in
  let screenshot_path := path_join (base_dir w) screenshot_name in

  save_instructions_to_excel w instructions excel_path;;
  print "Saved instructions to driving_instructions.xlsx";;

  save_full_page_screenshot w driver screenshot_path;;
  print "Saved screenshot to route_screenshot.png";;

  print "Done.";;
  mret 0%Z.

(** The [try] block. *)
Definition main_try (options : list string) : M Z :=
  driver ← main_select_route options;
  main_capture driver.

(** [str(exc)] *)
Definition str (exc : exn) : string := exn_msg exc.

(** The [except] clauses, most specific first. *)
Definition main_except : list (exn_class * (exn → M Z)) :=
  [ (TimeoutException,
     λ _, print "Timed out waiting for a page element. Please check selectors or network.";;
          mret 1%Z);
    (WebDriverException,
     λ exc, print ("WebDriver error: " ++ str exc);; mret 1%Z);
    (Exception,
     λ exc, print ("Unexpected error: " ++ str exc);; mret 1%Z) ].

(** [driver.quit()]: the session ends. *)
Definition quit : M unit :=
  λ s, (Returns tt, effect Quit (tick (emit (Called Quit) s))).

(** The [finally] block. *)
Definition main_finally : M unit :=
  λ s, match driver s with
       | Some _ => quit s
       | None => (Returns tt, s)
       end.

Definition main_options : list string :=
  [ "--start-maximized"; "--disable-notifications" ].

Definition main : M Z :=
  print "Starting Google Maps route extraction...";;
  let options := main_options in
  assign_driver None;;
  try_finally (try_except (main_try options) main_except) main_finally.

End Main.

(** ** A mock page layer

    Concrete worlds on which the statements below are exercised. *)

#[export] Instance By_eq_dec : EqDecision By.
Proof. solve_decision. Defined.

Module Mock.

Definition step_texts : list string :=
  [ ""; "  "; "Directions"; "Turn left"; "steps"; "Continue straight" ].

(** A page with a Directions button (1), one search box (2), the given
    route cards and the given step elements; element [20 + i] carries the
    [i]-th of [step_texts]; element [7] is hidden. *)
Definition page_with (routes steps : list element) : Page :=
  {| find_elements := λ l,
       if decide (l = route_cards_locator) then routes
       else if decide (l = step_locator) then steps
       else if decide (l = (CSS_SELECTOR, "button[aria-label='Directions']"))
            then [7; 1]
       else if decide (l = (CSS_SELECTOR, "input.tactile-searchbox-input"))
            then [2]
       else [];
     is_displayed := λ e, negb (e =? 7)%nat;
     is_enabled := λ _, true;
     text := λ e, nth (e - 20) step_texts "";
     current_url := "https://www.google.com/maps/dir/Koramangala/91+Springboard";
     content_size := (1280, 4000)%Z |}.

Definition world_with (routes steps : list element) : World :=
  {| page := λ _, page_with routes steps;
     raises := λ _ _, None;
     polls := λ timeout, 2 * timeout;
     base_dir := "/home/qa/PartB_Automation" |}.

(** Routes and steps are there. *)
Definition happy : World := world_with [10; 11] [20; 21; 22; 23; 24; 25].

(** Routes are there, the steps never appear. *)
Definition no_steps : World := world_with [10; 11] [].

(** No route card ever appears. *)
Definition no_routes : World := world_with [] [].

Definition start : State :=
  {| clock := 0; session := NotStarted; driver := None;
     window_size := (800, 600)%Z; files := ∅; log := [] |}.

(** A page whose only step element carries a padded text. *)
Definition padded : Page :=
  {| find_elements := λ _, [0];
     is_displayed := λ _, true;
     is_enabled := λ _, true;
     text := λ _, " Turn left";
     current_url := "https://www.google.com/maps/dir/";
     content_size := (1280, 4000)%Z |}.

(** The browser cannot be started. *)
Definition no_browser : World :=
  {| page := page happy;
     raises := λ _ a,
       match a with
       | NewChrome _ => Some (Exn WebDriverException "chromedriver not found")
       | _ => None
       end;
     polls := polls happy;
     base_dir := base_dir happy |}.

(** The spreadsheet cannot be written. *)
Definition locked_file : World :=
  {| page := page happy;
     raises := λ _ a,
       match a with
       | WorkbookSave _ _ => Some (Exn Exception "Permission denied")
       | _ => None
       end;
     polls := polls happy;
     base_dir := base_dir happy |}.

Definition chrome : WebDriver := ChromeDriver main_options.

End Mock.

(** ** Vocabulary of the statements *)

Definition timeout_error : exn := Exn TimeoutException "".

(** The value the method yields at the [k]-th poll after [s]. *)
Definition polled (w : World) {A} (method : Page → A) (s : State) (k : nat) : A :=
  method (page w (clock s + k)).

(** A candidate without any matching element. *)
Definition unmatched (drv : Page) (c : locator) : Prop :=
  find_elements drv c = [].

(** An element a click would not reach. *)
Definition unusable (drv : Page) (e : element) : Prop :=
  is_displayed drv e && is_enabled drv e = false.

(** Every element the candidates match, in scan order. *)
Definition scan (drv : Page) (locators : list locator) : list element :=
  List.concat (map (find_elements drv) locators).

(** A trimmed text that is captured. *)
Definition instruction (t : string) : Prop := t ≠ "" ∧ Str.lower t ∉ labels.

#[export] Instance instruction_dec t : Decision (instruction t).
Proof. unfold instruction. apply _. Defined.

(** The claim read to the letter: the raw texts themselves are kept. *)
Definition claimed_capture (raw_texts : list string) : list string :=
  filter (λ t, instruction (Str.strip t)) raw_texts.

Definition header : list cell := [ CStr "Step Number"; CStr "Instruction Text" ].

(** The rows [(index + i, text_i)]. *)
Definition numbered (index : Z) (instructions : list string) : list (list cell) :=
  imap (λ i text, [ CInt (index + Z.of_nat i); CStr text ]) instructions.

(** The one sheet of the exported workbook. *)
Definition exported (instructions : list string) : workbook :=
  {| sheets := [ {| title := "Driving Instructions";
                    rows := header :: numbered 1 instructions |} ];
     active := 0 |}.

(** What a cell keeps of a text. *)
Definition stored (t : string) : string := Str.slice_to 32767 t.

(** A text a cell takes as it is: at most 32767 characters, none illegal. *)
Definition storable (t : string) : Prop :=
  (N.of_nat (String.length t) ≤ 32767)%N ∧ has_illegal_character t = false.

(** Every value [m] returns satisfies [P]. *)
Definition yields {A} (P : A → Prop) (m : M A) : Prop :=
  ∀ s a s', m s = (Returns a, s') → P a.

Definition stable {A B} (proj : State → B) (m : M A) : Prop :=
  ∀ s r s', m s = (r, s') → proj s' = proj s.

(** The state in which the [try] block is entered. *)
Definition try_entry (s : State) : State :=
  set_driver None (emit (Printed "Starting Google Maps route extraction...") s).

(** The line the matching [except] clause prints. *)
Definition except_line (exc : exn) : string :=
  match exn_cls exc with
  | TimeoutException =>
      "Timed out waiting for a page element. Please check selectors or network."
  | WebDriverException => "WebDriver error: " ++ str exc
  | OSError | Exception => "Unexpected error: " ++ str exc
  end.

(** The state the [finally] block leaves. *)
Definition finalized (s : State) : State :=
  match driver s with
  | Some _ => effect Quit (tick (emit (Called Quit) s))
  | None => s
  end.

(** [m] creates the session first and leaves it in [driver]. *)
Definition opens (w : World) {A} (m : M A) : Prop :=
  ∀ s r s',
    m s = (r, s') →
    raises w (clock s) (NewChrome main_options) = None →
    driver s' = Some (ChromeDriver main_options).

Definition timeout_line : string :=
  "Timed out waiting for a page element. Please check selectors or network.".

(** The workbook with the header row and nothing else. *)
Definition only_header : workbook :=
  {| sheets := [ {| title := "Driving Instructions"; rows := [ header ] |} ];
     active := 0 |}.

Definition no_steps_line : string :=
  "No step elements found after waiting. Proceeding with empty list.".

(** ** Further mock worlds *)

Module Faults.

(** Every click is intercepted. *)
Definition blocked_click : World :=
  {| page := page Mock.happy;
     raises := λ _ a,
       match a with
       | Click _ => Some (Exn WebDriverException "element click intercepted")
       | _ => None
       end;
     polls := polls Mock.happy;
     base_dir := base_dir Mock.happy |}.

(** Every click runs into a timeout of its own. *)
Definition slow_click : World :=
  {| page := page Mock.happy;
     raises := λ _ a,
       match a with
       | Click _ => Some (Exn TimeoutException "timeout: renderer")
       | _ => None
       end;
     polls := polls Mock.happy;
     base_dir := base_dir Mock.happy |}.

(** The window is gone when the step elements are asked for again. *)
Definition lost_window : World :=
  {| page := page Mock.happy;
     raises := λ _ a,
       match a with
       | FindElements _ => Some (Exn WebDriverException "no such window")
       | _ => None
       end;
     polls := polls Mock.happy;
     base_dir := base_dir Mock.happy |}.

(** The picture cannot be written to its file. *)
Definition read_only_dir : World :=
  {| page := page Mock.happy;
     raises := λ _ a,
       match a with
       | WritePng _ => Some (Exn OSError "Read-only file system")
       | _ => None
       end;
     polls := polls Mock.happy;
     base_dir := base_dir Mock.happy |}.

End Faults.

(** A text without white space at its start. *)
Definition starts_clean (s : string) : Prop :=
  match s with
  | EmptyString => True
  | String c _ => Str.isspace c = false
  end.

(** An exception the script does not make up: the timeout of a wait, what
    a driver or file call raised, or the refusal of a text by a cell. *)
Definition external (w : World) (x : exn) : Prop :=
  x = timeout_error
  ∨ (∃ t a, raises w t a = Some x)
  ∨ (∃ value, x = IllegalCharacterError value).

(** [m] returns values in [V] and raises external exceptions only. *)
Definition sound (w : World) {A} (V : A → Prop) (m : M A) : Prop :=
  ∀ s r s',
    m s = (r, s') →
    match r with
    | Returns a => V a
    | Raises x => external w x
    end.

(** [m] only appends to the log, and only events in [P]. *)
Definition appends (P : event → Prop) {A} (m : M A) : Prop :=
  ∀ s r s', m s = (r, s') → ∃ added, log s' = log s ++ added ∧ Forall P added.

Definition start_line : string := "Starting Google Maps route extraction...".

Definition not_quit (ev : event) : Prop := ev ≠ Called Quit.

(** * Properties *)

(** ** Polling *)

Lemma clock_ticks k s : clock (Nat.iter k tick s) = clock s + k.
Proof.
  induction k as [|k IH]; simpl; [lia|]. rewrite IH. lia.
Qed.

Lemma iter_tick_shift k s : Nat.iter k tick (tick s) = Nat.iter (S k) tick s.
Proof.
  induction k as [|k IH]; [reflexivity|]. simpl in *. now rewrite IH.
Qed.

Section Polling.

Variable w : World.
Context {A : Type} `{Truthy A}.
Variable method : Page → A.

Lemma polled_0 s : polled w method s 0 = method (page w (clock s)).
Proof. unfold polled. now rewrite Nat.add_0_r. Qed.

Lemma polled_tick s k : polled w method (tick s) k = polled w method s (S k).
Proof.
  unfold polled. simpl. do 2 f_equal. lia.
Qed.

Lemma until_from_unfold sleeps s :
  until_from w method sleeps s
  = if truth (polled w method s 0) then (Returns (polled w method s 0), s)
    else match sleeps with
         | 0 => (Raises timeout_error, s)
         | S sleeps' => until_from w method sleeps' (tick s)
         end.
Proof. rewrite polled_0. now destruct sleeps. Qed.

(** A wait returns at the first poll whose value is truthy. *)
Lemma until_from_returns sleeps s k :
  k ≤ sleeps →
  (∀ j, j < k → truth (polled w method s j) = false) →
  truth (polled w method s k) = true →
  until_from w method sleeps s = (Returns (polled w method s k), Nat.iter k tick s).
Proof.
  revert s k. induction sleeps as [|n IH]; intros s k Hk Hbefore Hat;
    rewrite until_from_unfold.
  - assert (k = 0) as -> by lia. now rewrite Hat.
  - destruct k as [|k]; [now rewrite Hat|].
    rewrite (Hbefore 0) by lia.
    rewrite (IH (tick s) k).
    + now rewrite polled_tick, iter_tick_shift.
    + lia.
    + intros j Hj. rewrite polled_tick. apply Hbefore. lia.
    + now rewrite polled_tick.
Qed.

(** A wait whose polls are all falsy raises a [TimeoutException]. *)
Lemma until_from_times_out sleeps s :
  (∀ k, k ≤ sleeps → truth (polled w method s k) = false) →
  until_from w method sleeps s = (Raises timeout_error, Nat.iter sleeps tick s).
Proof.
  revert s. induction sleeps as [|n IH]; intros s Hall;
    rewrite until_from_unfold, (Hall 0) by lia; [reflexivity|].
  rewrite IH.
  - now rewrite iter_tick_shift.
  - intros k Hk. rewrite polled_tick. apply Hall. lia.
Qed.

(** Every wait ends in one of these two ways. *)
Lemma until_from_cases sleeps s :
  (∃ k, k ≤ sleeps
        ∧ (∀ j, j < k → truth (polled w method s j) = false)
        ∧ truth (polled w method s k) = true
        ∧ until_from w method sleeps s
          = (Returns (polled w method s k), Nat.iter k tick s))
  ∨ ((∀ k, k ≤ sleeps → truth (polled w method s k) = false)
     ∧ until_from w method sleeps s
       = (Raises timeout_error, Nat.iter sleeps tick s)).
Proof.
  assert (Hdec : ∀ n, (∃ k, k < n ∧ (∀ j, j < k → truth (polled w method s j) = false)
                            ∧ truth (polled w method s k) = true)
                      ∨ (∀ k, k < n → truth (polled w method s k) = false)).
  { induction n as [|n [(k & Hk & Hb & Ht) | Hnone]].
    - right. intros k Hk. lia.
    - left. exists k. split; [lia | auto].
    - destruct (truth (polled w method s n)) eqn:E.
      + left. exists n. split; [lia | auto].
      + right. intros k Hk. destruct (decide (k = n)) as [-> | Hne]; [done|].
        apply Hnone. lia. }
  destruct (Hdec (S sleeps)) as [(k & Hk & Hb & Ht) | Hnone].
  - left. exists k. split; [lia|]. split; [done|]. split; [done|].
    apply until_from_returns; [lia | done | done].
  - right. split.
    + intros k Hk. apply Hnone. lia.
    + apply until_from_times_out. intros k Hk. apply Hnone. lia.
Qed.

(** What a returned value tells. *)
Lemma until_from_returned sleeps s v s' :
  until_from w method sleeps s = (Returns v, s') →
  ∃ k, k ≤ sleeps ∧ s' = Nat.iter k tick s ∧ v = polled w method s k
       ∧ truth v = true ∧ (∀ j, j < k → truth (polled w method s j) = false).
Proof.
  intros Hrun.
  destruct (until_from_cases sleeps s) as [(k & Hk & Hb & Ht & Heq) | [_ Heq]];
    rewrite Heq in Hrun; [| discriminate].
  injection Hrun as <- <-. exists k. auto.
Qed.

(** What a raised exception tells. *)
Lemma until_from_raised sleeps s e s' :
  until_from w method sleeps s = (Raises e, s') →
  e = timeout_error ∧ s' = Nat.iter sleeps tick s
  ∧ (∀ k, k ≤ sleeps → truth (polled w method s k) = false).
Proof.
  intros Hrun.
  destruct (until_from_cases sleeps s) as [(k & Hk & Hb & Ht & Heq) | [Hall Heq]];
    rewrite Heq in Hrun; [discriminate|].
  injection Hrun as <- <-. auto.
Qed.

End Polling.

(** ** The locator callbacks on one snapshot of the page *)

Lemma locate_first_skips drv before rest :
  Forall (unmatched drv) before →
  locate_first drv (before ++ rest) = locate_first drv rest.
Proof.
  induction 1 as [|c before Hc _ IH]; [reflexivity|].
  simpl. now rewrite Hc.
Qed.

Lemma locate_all_skips drv before rest :
  Forall (unmatched drv) before →
  locate_all drv (before ++ rest) = locate_all drv rest.
Proof.
  induction 1 as [|c before Hc _ IH]; [reflexivity|].
  simpl. now rewrite Hc.
Qed.

Lemma locate_first_none drv locators :
  Forall (unmatched drv) locators → locate_first drv locators = PyFalse.
Proof.
  intros Hall. rewrite <- (app_nil_r locators). now rewrite locate_first_skips.
Qed.

Lemma locate_all_none drv locators :
  Forall (unmatched drv) locators → locate_all drv locators = PyFalse.
Proof.
  intros Hall. rewrite <- (app_nil_r locators). now rewrite locate_all_skips.
Qed.

Lemma locate_first_found drv before c after e es :
  Forall (unmatched drv) before →
  find_elements drv c = e :: es →
  locate_first drv (before ++ c :: after) = Val e.
Proof.
  intros Hbefore Hc. rewrite locate_first_skips by done. simpl. now rewrite Hc.
Qed.

Lemma locate_all_found drv before c after e es :
  Forall (unmatched drv) before →
  find_elements drv c = e :: es →
  locate_all drv (before ++ c :: after) = Val (e :: es).
Proof.
  intros Hbefore Hc. rewrite locate_all_skips by done. simpl. now rewrite Hc.
Qed.

(** [locate_all] never yields an empty list. *)
Lemma locate_all_nonempty drv locators l :
  locate_all drv locators = Val l → ∃ e es, l = e :: es.
Proof.
  induction locators as [|c rest IH]; simpl; [discriminate|].
  destruct (find_elements drv c) as [|e es] eqn:E; simpl; [exact IH|].
  intros [= <-]. eauto.
Qed.

Lemma first_clickable_app drv l1 l2 :
  first_clickable drv (l1 ++ l2)
  = match first_clickable drv l1 with
    | Some e => Some e
    | None => first_clickable drv l2
    end.
Proof.
  induction l1 as [|e l1 IH]; simpl; [reflexivity|].
  now destruct (is_displayed drv e && is_enabled drv e).
Qed.

(** The nested loops are one pass over the scan. *)
Lemma locate_first_clickable_scan drv locators :
  locate_first_clickable drv locators
  = match first_clickable drv (scan drv locators) with
    | Some e => Val e
    | None => PyFalse
    end.
Proof.
  unfold scan. induction locators as [|c rest IH]; simpl; [reflexivity|].
  rewrite first_clickable_app.
  now destruct (first_clickable drv (find_elements drv c)).
Qed.

Lemma first_clickable_some drv l e :
  first_clickable drv l = Some e →
  ∃ before after, l = before ++ e :: after
                  ∧ Forall (unusable drv) before
                  ∧ is_displayed drv e = true ∧ is_enabled drv e = true.
Proof.
  induction l as [|x l IH]; simpl; [discriminate|].
  destruct (is_displayed drv x && is_enabled drv x) eqn:E.
  - intros [= <-]. exists [], l. apply andb_true_iff in E as [Hd He].
    repeat split; auto.
  - intros (before & after & -> & Hb & Hd) % IH.
    exists (x :: before), after. split; [reflexivity|]. split; [|done].
    now constructor.
Qed.

Lemma first_clickable_found drv before e after :
  Forall (unusable drv) before →
  is_displayed drv e = true → is_enabled drv e = true →
  first_clickable drv (before ++ e :: after) = Some e.
Proof.
  intros Hb Hd He. induction Hb as [|x before Hx _ IH]; simpl.
  - now rewrite Hd, He.
  - unfold unusable in Hx. now rewrite Hx.
Qed.

Lemma first_clickable_none drv l :
  Forall (unusable drv) l → first_clickable drv l = None.
Proof.
  induction 1 as [|x l Hx _ IH]; simpl; [reflexivity|].
  unfold unusable in Hx. now rewrite Hx.
Qed.

Lemma first_clickable_none_inv drv l :
  first_clickable drv l = None → Forall (unusable drv) l.
Proof.
  induction l as [|x l IH]; simpl; [constructor|].
  destruct (is_displayed drv x && is_enabled drv x) eqn:E; [discriminate|].
  intros Hl. constructor; auto.
Qed.

(** ** The waits *)

(** C1. For the non-clickable resolvers, the first candidate (in list order)
    with a match decides the result: at the first poll at which some
    candidate matches, [wait_for_any_element] returns the first element of
    that candidate's matches and [wait_for_any_elements] returns exactly
    that candidate's matches, in order, whatever the later candidates match;
    when no candidate matches at any poll the timeout leaves room for, both
    raise a [TimeoutException]. *)
Theorem first_matching_candidate_decides w driver locators timeout s :
  (∀ k before c after e es,
      k ≤ polls w timeout →
      (∀ j, j < k → Forall (unmatched (page w (clock s + j))) locators) →
      locators = before ++ c :: after →
      Forall (unmatched (page w (clock s + k))) before →
      find_elements (page w (clock s + k)) c = e :: es →
      wait_for_any_element w driver locators timeout s
      = (Returns (Val e), Nat.iter k tick s)
      ∧ wait_for_any_elements w driver locators timeout s
        = (Returns (Val (e :: es)), Nat.iter k tick s))
  ∧ ((∀ k, k ≤ polls w timeout →
           Forall (unmatched (page w (clock s + k))) locators) →
     wait_for_any_element w driver locators timeout s
     = (Raises timeout_error, Nat.iter (polls w timeout) tick s)
     ∧ wait_for_any_elements w driver locators timeout s
       = (Raises timeout_error, Nat.iter (polls w timeout) tick s)).
Proof.
  unfold wait_for_any_element, wait_for_any_elements, until. split.
  - intros k before c after e es Hk Hearlier -> Hbefore Hc. split.
    + rewrite (until_from_returns w _ _ s k Hk); unfold polled.
      * now rewrite (locate_first_found _ _ _ _ _ _ Hbefore Hc).
      * intros j Hj. now rewrite locate_first_none by auto.
      * now rewrite (locate_first_found _ _ _ _ _ _ Hbefore Hc).
    + rewrite (until_from_returns w _ _ s k Hk); unfold polled.
      * now rewrite (locate_all_found _ _ _ _ _ _ Hbefore Hc).
      * intros j Hj. now rewrite locate_all_none by auto.
      * now rewrite (locate_all_found _ _ _ _ _ _ Hbefore Hc).
  - intros Hnever. split; apply until_from_times_out; intros k Hk; unfold polled.
    + now rewrite locate_first_none by auto.
    + now rewrite locate_all_none by auto.
Qed.

Lemma clickable_wait_returned w driver locators timeout s v s' :
  wait_for_any_clickable_element w driver locators timeout s = (Returns v, s') →
  ∃ e before after,
    v = Val e
    ∧ scan (page w (clock s')) locators = before ++ e :: after
    ∧ Forall (unusable (page w (clock s'))) before
    ∧ is_displayed (page w (clock s')) e = true
    ∧ is_enabled (page w (clock s')) e = true.
Proof.
  unfold wait_for_any_clickable_element, until. intros Hrun.
  apply until_from_returned in Hrun as (k & Hk & -> & -> & Htruth & _).
  rewrite clock_ticks. unfold polled in *.
  rewrite locate_first_clickable_scan in *.
  destruct (first_clickable _ _) as [e|] eqn:E; [|discriminate].
  apply first_clickable_some in E as (before & after & Hscan & Hb & Hd & He).
  exists e, before, after. auto.
Qed.

Lemma clickable_wait_found w driver locators timeout s k before e after :
  k ≤ polls w timeout →
  (∀ j, j < k → Forall (unusable (page w (clock s + j)))
                       (scan (page w (clock s + j)) locators)) →
  scan (page w (clock s + k)) locators = before ++ e :: after →
  Forall (unusable (page w (clock s + k))) before →
  is_displayed (page w (clock s + k)) e = true →
  is_enabled (page w (clock s + k)) e = true →
  wait_for_any_clickable_element w driver locators timeout s
  = (Returns (Val e), Nat.iter k tick s).
Proof.
  unfold wait_for_any_clickable_element, until.
  intros Hk Hearlier Hscan Hb Hd He.
  assert (Hat : locate_first_clickable (page w (clock s + k)) locators = Val e).
  { rewrite locate_first_clickable_scan, Hscan.
    now rewrite first_clickable_found. }
  rewrite (until_from_returns w _ _ s k Hk); unfold polled.
  - now rewrite Hat.
  - intros j Hj. rewrite locate_first_clickable_scan.
    now rewrite first_clickable_none by auto.
  - now rewrite Hat.
Qed.

Lemma clickable_wait_times_out w driver locators timeout s :
  (∀ k, k ≤ polls w timeout →
        Forall (unusable (page w (clock s + k)))
               (scan (page w (clock s + k)) locators)) →
  wait_for_any_clickable_element w driver locators timeout s
  = (Raises timeout_error, Nat.iter (polls w timeout) tick s).
Proof.
  unfold wait_for_any_clickable_element, until.
  intros Hnever. apply until_from_times_out. intros k Hk. unfold polled.
  rewrite locate_first_clickable_scan.
  now rewrite first_clickable_none by auto.
Qed.

(** C2. [wait_for_any_clickable_element] returns only an element that is
    displayed and enabled on the page at the moment of return: the first such
    element of the scan, every matched element before it being unusable; it
    keeps polling past matched but unusable elements and returns at the first
    poll that shows a usable one; and when no poll the timeout leaves room
    for shows a displayed and enabled element among the matches, it raises a
    [TimeoutException]. *)
Theorem clickable_wait_returns_usable w driver locators timeout s :
  (∀ v s',
      wait_for_any_clickable_element w driver locators timeout s
      = (Returns v, s') →
      ∃ e before after,
        v = Val e
        ∧ scan (page w (clock s')) locators = before ++ e :: after
        ∧ Forall (unusable (page w (clock s'))) before
        ∧ is_displayed (page w (clock s')) e = true
        ∧ is_enabled (page w (clock s')) e = true)
  ∧ (∀ k before e after,
        k ≤ polls w timeout →
        (∀ j, j < k → Forall (unusable (page w (clock s + j)))
                             (scan (page w (clock s + j)) locators)) →
        scan (page w (clock s + k)) locators = before ++ e :: after →
        Forall (unusable (page w (clock s + k))) before →
        is_displayed (page w (clock s + k)) e = true →
        is_enabled (page w (clock s + k)) e = true →
        wait_for_any_clickable_element w driver locators timeout s
        = (Returns (Val e), Nat.iter k tick s))
  ∧ ((∀ k, k ≤ polls w timeout →
           Forall (unusable (page w (clock s + k)))
                  (scan (page w (clock s + k)) locators)) →
     wait_for_any_clickable_element w driver locators timeout s
     = (Raises timeout_error, Nat.iter (polls w timeout) tick s)).
Proof.
  split; [|split].
  - intros v s'. apply clickable_wait_returned.
  - intros k before e after. apply clickable_wait_found.
  - apply clickable_wait_times_out.
Qed.

(** C10. Whatever [wait_for_any_elements] returns is a non-empty list, so
    the guard of [main] on its result does not raise. *)
Theorem wait_for_any_elements_nonempty w driver locators timeout s v s' :
  wait_for_any_elements w driver locators timeout s = (Returns v, s') →
  (∃ e es, v = Val (e :: es))
  ∧ routes_guard v s' = (Returns tt, s').
Proof.
  unfold wait_for_any_elements, until. intros Hrun.
  apply until_from_returned in Hrun as (k & _ & _ & Hv & Htruth & _).
  unfold routes_guard. rewrite Htruth. split; [|reflexivity].
  destruct v as [l|]; [|discriminate].
  symmetry in Hv. apply locate_all_nonempty in Hv as (e & es & ->). eauto.
Qed.

(** ** [try_click_optional] *)

(** The three ways [try_click_optional] can end. *)
Lemma try_click_optional_run w driver locators timeout s :
  match wait_for_any_clickable_element w driver locators timeout s with
  | (Raises _, s1) =>
      try_click_optional w driver locators timeout s = (Returns false, s1)
  | (Returns v, s1) =>
      ∃ e, v = Val e
           ∧ match act w (Click e) s1 with
             | (Returns _, s') =>
                 try_click_optional w driver locators timeout s
                 = (Returns true, s')
             | (Raises x, s') =>
                 try_click_optional w driver locators timeout s
                 = if isinstance x TimeoutException then (Returns false, s')
                   else (Raises x, s')
             end
  end.
Proof.
  unfold try_click_optional, try_except, mbind, M_bind.
  destruct (wait_for_any_clickable_element w driver locators timeout s)
    as [[v|x] s1] eqn:Hwait.
  - apply clickable_wait_returned in Hwait as (e & _ & _ & -> & _).
    exists e. split; [reflexivity|]. simpl.
    destruct (act w (Click e) s1) as [[[]|x] s']; [reflexivity|].
    simpl. now destruct (isinstance x TimeoutException).
  - unfold wait_for_any_clickable_element, until in Hwait.
    apply until_from_raised in Hwait as (-> & _ & _). reflexivity.
Qed.

(** C3, amended. [try_click_optional] returns [False], without raising, when
    no candidate yields a displayed and enabled element at any poll of its
    timeout: the [TimeoutException] of the clickable wait becomes the value
    [False]; and it returns [True] exactly when the wait resolved an element
    and the click issued on it returned without raising. *)
Theorem try_click_optional_outcomes w driver locators timeout s :
  ((∀ k, k ≤ polls w timeout →
         Forall (unusable (page w (clock s + k)))
                (scan (page w (clock s + k)) locators)) →
   try_click_optional w driver locators timeout s
   = (Returns false, Nat.iter (polls w timeout) tick s))
  ∧ (∀ x s1,
        wait_for_any_clickable_element w driver locators timeout s
        = (Raises x, s1) →
        try_click_optional w driver locators timeout s = (Returns false, s1))
  ∧ (∀ s',
        try_click_optional w driver locators timeout s = (Returns true, s')
        ↔ ∃ e s1,
            wait_for_any_clickable_element w driver locators timeout s
            = (Returns (Val e), s1)
            ∧ act w (Click e) s1 = (Returns tt, s')).
Proof.
  pose proof (try_click_optional_run w driver locators timeout s) as Hrun.
  split.
  { intros Hnever.
    now rewrite (clickable_wait_times_out w driver _ _ _ Hnever) in Hrun. }
  destruct (wait_for_any_clickable_element w driver locators timeout s)
    as [[v|x] s1].
  - destruct Hrun as (e & -> & Hclick). split; [discriminate|].
    intros s'. destruct (act w (Click e) s1) as [[[]|y] s2] eqn:Hact.
    + rewrite Hclick. split.
      * intros [= <-]. eauto.
      * intros (e' & s1' & [= <- <-] & Hact'). congruence.
    + rewrite Hclick. split.
      * destruct (isinstance y TimeoutException); discriminate.
      * intros (e' & s1' & [= <- <-] & Hact'). congruence.
  - split.
    + intros y s1' [= <- <-]. exact Hrun.
    + intros s'. rewrite Hrun. split; [discriminate|].
      intros (e & s1' & [=] & _).
Qed.

(** ** Filtering the step texts *)

Lemma truth_str t : truth t = false ↔ t = "".
Proof. destruct t; unfold truth, str_truthy; split; congruence. Qed.

Lemma capture_acc drv step_elements instructions :
  capture drv step_elements instructions
  = instructions ++ capture drv step_elements [].
Proof.
  revert instructions.
  induction step_elements as [|e rest IH]; intros acc; simpl.
  - now rewrite app_nil_r.
  - destruct (truth (Str.strip (text drv e))); simpl; [|apply IH].
    destruct (bool_decide _); [apply IH|].
    rewrite (IH (acc ++ _)), (IH [_]). now rewrite <- app_assoc.
Qed.

Lemma capture_cons drv e rest :
  capture drv (e :: rest) []
  = (if decide (instruction (Str.strip (text drv e)))
     then [Str.strip (text drv e)] else [])
    ++ capture drv rest [].
Proof.
  simpl. destruct (truth (Str.strip (text drv e))) eqn:Htruth; simpl.
  - assert (Str.strip (text drv e) ≠ "") as Hne.
    { intros Heq % truth_str. congruence. }
    destruct (bool_decide _) eqn:Hlabel.
    + apply bool_decide_eq_true in Hlabel.
      rewrite decide_False by (intros [_ ?]; done). reflexivity.
    + apply bool_decide_eq_false in Hlabel.
      rewrite decide_True by done. apply capture_acc.
  - apply truth_str in Htruth.
    rewrite decide_False by (intros [? _]; done). reflexivity.
Qed.

(** C4, amended. The captured sequence consists of the trimmed step texts:
    in the original order, those trimmed texts that are non-empty and whose
    lowercased form is neither "directions" nor "steps"; for the raw texts
    "", "  ", "Directions", "Turn left", "steps", "Continue straight" it is
    "Turn left", "Continue straight". *)
Theorem capture_trims_and_filters drv step_elements :
  capture drv step_elements []
  = filter instruction (Str.strip ∘ text drv <$> step_elements)
  ∧ (text drv <$> step_elements
     = [ ""; "  "; "Directions"; "Turn left"; "steps"; "Continue straight" ] →
     capture drv step_elements [] = [ "Turn left"; "Continue straight" ]).
Proof.
  assert (Hfilter : ∀ l, capture drv l []
                         = filter instruction (Str.strip ∘ text drv <$> l)).
  { induction l as [|e rest IH]; [reflexivity|].
    rewrite capture_cons, IH, fmap_cons, filter_cons. simpl.
    now destruct (decide (instruction _)). }
  split; [apply Hfilter|].
  intros Hraw. rewrite Hfilter, list_fmap_compose, Hraw. reflexivity.
Qed.

(** ** The spreadsheet *)

Lemma slice_to_short n t :
  (N.of_nat (String.length t) ≤ n)%N → Str.slice_to n t = t.
Proof.
  revert n. induction t as [|c rest IH]; intros n Hn; simpl; [reflexivity|].
  simpl in Hn. destruct (N.eqb_spec n 0) as [-> | Hpos]; [lia|].
  rewrite IH; [reflexivity | lia].
Qed.

Lemma stored_storable t : storable t → stored t = t.
Proof. intros [Hlen _]. now apply slice_to_short. Qed.

Lemma numbered_cons index t rest :
  numbered index (t :: rest)
  = [ CInt index; CStr t ] :: numbered (index + 1) rest.
Proof.
  unfold numbered. simpl. rewrite Z.add_0_r. f_equal.
  apply imap_ext. intros i t' _. simpl. do 2 f_equal. lia.
Qed.

(** The numbered rows go in until a text is refused. *)
Lemma append_instructions_run instructions index sh :
  append_instructions index instructions {| sheets := [sh]; active := 0 |}
  = match find (λ t, has_illegal_character (stored t)) instructions with
    | Some t => Raises (IllegalCharacterError (stored t))
    | None =>
        Returns
          {| sheets :=
               [ {| title := title sh;
                    rows := rows sh ++ numbered index (stored <$> instructions) |} ];
             active := 0 |}
    end.
Proof.
  revert index sh. induction instructions as [|t rest IH]; intros index sh.
  - simpl. rewrite app_nil_r. now destruct sh.
  - cbn [append_instructions find fmap list_fmap].
    unfold append, bind_row, bind_value, check_string. fold (stored t).
    destruct (has_illegal_character (stored t)); [reflexivity|].
    cbn [mbind result_bind mret result_ret].
    change (on_active
              (λ sh0, {| title := title sh0;
                         rows := rows sh0 ++ [[CInt index; CStr (stored t)]] |})
              {| sheets := [sh]; active := 0 |})
      with {| sheets :=
                [ {| title := title sh;
                     rows := rows sh ++ [[CInt index; CStr (stored t)]] |} ];
              active := 0 |}.
    rewrite IH. cbn [title rows].
    destruct (find _ rest); [reflexivity|].
    now rewrite numbered_cons, <- app_assoc.
Qed.

Lemma instructions_workbook_run instructions :
  instructions_workbook instructions
  = match find (λ t, has_illegal_character (stored t)) instructions with
    | Some t => Raises (IllegalCharacterError (stored t))
    | None => Returns (exported (stored <$> instructions))
    end.
Proof.
  unfold instructions_workbook.
  change (append [CStr "Step Number"; CStr "Instruction Text"]
            (set_title "Driving Instructions" Workbook))
    with (Returns {| sheets := [ {| title := "Driving Instructions";
                                    rows := [ header ] |} ];
                     active := 0 |}).
  cbn [mbind result_bind]. now rewrite append_instructions_run.
Qed.

Lemma storable_find instructions :
  Forall storable instructions →
  find (λ t, has_illegal_character (stored t)) instructions = None
  ∧ stored <$> instructions = instructions.
Proof.
  induction 1 as [|t rest Ht _ [IHfind IHmap]]; [done|].
  cbn [find fmap list_fmap]. rewrite (stored_storable t Ht).
  destruct Ht as [_ ->]. split; [exact IHfind | now f_equal].
Qed.

Lemma instructions_workbook_exported instructions :
  Forall storable instructions →
  instructions_workbook instructions = Returns (exported instructions).
Proof.
  intros [Hfind Hmap] % storable_find.
  now rewrite instructions_workbook_run, Hfind, Hmap.
Qed.

(** C5, amended. For instructions the sheet takes as they are (at most 32767
    characters each, none of them a control character a cell refuses), the
    export saves a workbook with a single sheet whose rows are the header
    followed by one row [(i, text_i)] per instruction, numbered from 1 in
    input order: [n + 1] rows for [n] instructions, and for "A", "B" the
    three rows header, (1, "A"), (2, "B").  When the save does not raise,
    that workbook is the file at the given path. *)
Theorem excel_export_rows w instructions file_path s :
  Forall storable instructions →
  ∃ r s',
    save_instructions_to_excel w instructions file_path s = (r, s')
    ∧ log s' = log s ++ [ Called (WorkbookSave (exported instructions) file_path) ]
    ∧ rows <$> sheets (exported instructions)
      = [ header :: imap (λ i text, [ CInt (Z.of_nat (S i)); CStr text ])
                         instructions ]
    ∧ (raises w (clock s) (WorkbookSave (exported instructions) file_path) = None →
       r = Returns tt
       ∧ files s' = <[ file_path := Xlsx (exported instructions) ]> (files s))
    ∧ (instructions = [ "A"; "B" ] →
       rows <$> sheets (exported instructions)
       = [ [ header; [ CInt 1; CStr "A" ]; [ CInt 2; CStr "B" ] ] ]).
Proof.
  intros Hstorable.
  unfold save_instructions_to_excel, lift, mbind, M_bind, act.
  rewrite (instructions_workbook_exported _ Hstorable).
  destruct (raises w (clock s) _) as [x|] eqn:Hraise; eexists _, _;
    (split; [reflexivity|]); (split; [reflexivity|]); (split; [|split]);
    try (intros ->; reflexivity); try discriminate.
  - simpl. do 2 f_equal. apply imap_ext. intros i t _. do 2 f_equal. lia.
  - simpl. do 2 f_equal. apply imap_ext. intros i t _. do 2 f_equal. lia.
  - intros _. split; reflexivity.
Qed.

(** ** Sequencing *)

Lemma bind_returns {A B} (m : M A) (f : A → M B) s a s1 :
  m s = (Returns a, s1) → (m ≫= f) s = f a s1.
Proof. intros Hm. unfold mbind, M_bind. now rewrite Hm. Qed.

Lemma bind_raises {A B} (m : M A) (f : A → M B) s e s1 :
  m s = (Raises e, s1) → (m ≫= f) s = (Raises e, s1).
Proof. intros Hm. unfold mbind, M_bind. now rewrite Hm. Qed.

Lemma yields_ret {A} (P : A → Prop) a : P a → yields P (mret a).
Proof. intros HP s a' s' [= <- _]. exact HP. Qed.

Lemma yields_bind {A B} (P : B → Prop) (m : M A) (f : A → M B) :
  (∀ a, yields P (f a)) → yields P (m ≫= f).
Proof.
  intros Hf s b s'. unfold mbind, M_bind.
  destruct (m s) as [[a|e] s1]; [apply Hf | discriminate].
Qed.

(** ** Frames: what a computation leaves alone *)

Section Frame.

Context {B : Type} (proj : State → B).
Hypothesis proj_tick : ∀ s, proj (tick s) = proj s.
Hypothesis proj_emit : ∀ ev s, proj (emit ev s) = proj s.
Variable w : World.

Lemma stable_ret {A} (a : A) : stable proj (mret a).
Proof. now intros s r s' [= <- <-]. Qed.

Lemma stable_raise {A} e : stable proj (@raise A e).
Proof. now intros s r s' [= <- <-]. Qed.

Lemma stable_bind {A C} (m : M A) (f : A → M C) :
  stable proj m → (∀ a, stable proj (f a)) → stable proj (m ≫= f).
Proof.
  intros Hm Hf s r s'. unfold mbind, M_bind.
  destruct (m s) as [[a|e] s1] eqn:E.
  - intros Hrun. rewrite (Hf _ _ _ _ Hrun). eapply Hm, E.
  - intros [= <- <-]. eapply Hm, E.
Qed.

Lemma stable_print line : stable proj (print line).
Proof. intros s r s' [= <- <-]. apply proj_emit. Qed.

Lemma stable_observe {A} (f : Page → A) : stable proj (observe w f).
Proof. now intros s r s' [= <- <-]. Qed.

Lemma proj_ticks k s : proj (Nat.iter k tick s) = proj s.
Proof. induction k as [|k IH]; [reflexivity|]. simpl. now rewrite proj_tick. Qed.

Lemma stable_until {A} `{Truthy A} timeout (method : Page → A) :
  stable proj (until w timeout method).
Proof.
  intros s r s'. unfold until.
  destruct (until_from_cases w method (polls w timeout) s)
    as [(k & _ & _ & _ & ->) | [_ ->]]; intros [= <- <-]; apply proj_ticks.
Qed.

Lemma stable_act a :
  (∀ s, proj (effect a s) = proj s) → stable proj (act w a).
Proof.
  intros Heffect s r s'. unfold act.
  destruct (raises w (clock s) a); intros [= <- <-];
    now rewrite ?Heffect, proj_tick, proj_emit.
Qed.

Lemma stable_try_except {A} (body : M A) clauses :
  stable proj body →
  Forall (λ cl, ∀ e, stable proj (cl.2 e)) clauses →
  stable proj (try_except body clauses).
Proof.
  intros Hbody Hclauses s r s'. unfold try_except.
  destruct (body s) as [[a|e] s1] eqn:E.
  - intros [= <- <-]. eapply Hbody, E.
  - destruct (find _ clauses) as [cl|] eqn:Hfind.
    + intros Hrun. apply find_some in Hfind as [Hin _].
      rewrite List.Forall_forall in Hclauses.
      rewrite (Hclauses cl Hin _ _ _ _ Hrun). eapply Hbody, E.
    + intros [= <- <-]. eapply Hbody, E.
Qed.

Lemma stable_click v : stable proj (click w v).
Proof. destruct v; [now apply stable_act | apply stable_raise]. Qed.

Lemma stable_clear v : stable proj (clear w v).
Proof. destruct v; [now apply stable_act | apply stable_raise]. Qed.

Lemma stable_send_keys v k : stable proj (send_keys w v k).
Proof. destruct v; [now apply stable_act | apply stable_raise]. Qed.

Lemma stable_getitem v i : stable proj (getitem v i).
Proof.
  destruct v as [l|]; simpl; [|apply stable_raise].
  destruct (l !! i); [apply stable_ret | apply stable_raise].
Qed.

Lemma stable_routes_guard v : stable proj (routes_guard v).
Proof.
  unfold routes_guard.
  destruct (negb _); [apply stable_raise | apply stable_ret].
Qed.

Lemma stable_try_click_optional driver locators timeout :
  stable proj (try_click_optional w driver locators timeout).
Proof.
  unfold try_click_optional. apply stable_try_except.
  - apply stable_bind; [apply stable_until|]. intros v.
    apply stable_bind; [apply stable_click|]. intros ?. apply stable_ret.
  - repeat constructor. intros ?. apply stable_ret.
Qed.

Lemma stable_save_screenshot filename :
  (∀ s, proj (effect (WritePng filename) s) = proj s) →
  stable proj (save_screenshot w filename).
Proof.
  intros Hwrite. unfold save_screenshot.
  apply stable_bind; [now apply stable_act|]. intros ?.
  apply stable_try_except.
  - apply stable_bind; [now apply stable_act|]. intros ?. apply stable_ret.
  - repeat constructor. intros ?. apply stable_ret.
Qed.

Lemma stable_lift {A} (r : result A) : stable proj (lift r).
Proof. now intros s r' s' [= <- <-]. Qed.

Lemma stable_driver_find_elements l : stable proj (driver_find_elements w l).
Proof.
  unfold driver_find_elements.
  apply stable_bind; [now apply stable_act|]. intros ?. apply stable_observe.
Qed.

Lemma stable_main_step_elements driver :
  stable proj (main_step_elements w driver).
Proof.
  unfold main_step_elements. apply stable_try_except.
  - apply stable_bind; [apply stable_until|]. intros ?.
    apply stable_driver_find_elements.
  - repeat constructor. intros ?.
    apply stable_bind; [apply stable_print|]. intros ?. apply stable_ret.
Qed.

End Frame.

(** Chains of binds over the primitives, for a projection the clock and the
    log do not touch. *)
Ltac frame_step :=
  first
    [ apply stable_save_screenshot
    | apply stable_bind; [|intros ?]
    | apply stable_ret | apply stable_raise
    | apply stable_print | apply stable_observe | apply stable_until
    | apply stable_click | apply stable_clear | apply stable_send_keys
    | apply stable_getitem | apply stable_routes_guard
    | apply stable_try_click_optional | apply stable_main_step_elements
    | apply stable_lift | apply stable_act ].

Ltac frame := repeat frame_step; try (intros; reflexivity).

Lemma files_assign_driver d : stable files (assign_driver d).
Proof. now intros s r s' [= <- <-]. Qed.

Lemma files_main_open_directions w options :
  stable files (main_open_directions w options).
Proof.
  unfold main_open_directions, Chrome.
  apply stable_bind; [frame|]. intros driver.
  apply stable_bind; [apply files_assign_driver|]. intros _. frame.
Qed.

Lemma files_main_select_route w options :
  stable files (main_select_route w options).
Proof.
  unfold main_select_route.
  apply stable_bind; [apply files_main_open_directions|]. intros driver. frame.
Qed.

Lemma driver_main_capture w d : stable driver (main_capture w d).
Proof.
  unfold main_capture, save_instructions_to_excel, save_full_page_screenshot,
    execute_cdp_cmd.
  do 3 (apply stable_bind; [frame | intros ?]).
  apply stable_bind; [destruct (negb _); frame | intros ?]. frame.
Qed.

(** ** The run of [main] *)

Lemma main_finally_run s : main_finally s = (Returns tt, finalized s).
Proof. unfold main_finally, finalized, quit. now destruct (driver s). Qed.

(** An event is in a log built by appending. *)
Ltac in_log :=
  repeat first
    [ apply elem_of_app; right; apply list_elem_of_singleton; reflexivity
    | apply elem_of_app; right; apply list_elem_of_In;
      solve [ repeat first [ left; reflexivity | right ] ]
    | apply elem_of_app; left ].

Lemma log_finalized ev s : ev ∈ log s → ev ∈ log (finalized s).
Proof.
  unfold finalized. destruct (driver s); [|done].
  simpl. intros Hin. apply elem_of_app. now left.
Qed.

Lemma files_finalized s : files (finalized s) = files s.
Proof. unfold finalized. now destruct (driver s). Qed.

Lemma main_run w s :
  main w s
  = match main_try w main_options (try_entry s) with
    | (Returns code, s1) => (Returns code, finalized s1)
    | (Raises e, s1) =>
        (Returns 1%Z, finalized (emit (Printed (except_line e)) s1))
    end.
Proof.
  change (main w s)
    with (try_finally (try_except (main_try w main_options) main_except)
            main_finally (try_entry s)).
  unfold try_finally, try_except.
  destruct (main_try w main_options (try_entry s)) as [[code|[[] msg]] s1];
    simpl; now rewrite main_finally_run.
Qed.

Lemma main_try_yields_0 w options : yields (λ code, code = 0%Z) (main_try w options).
Proof.
  unfold main_try, main_capture.
  repeat (apply yields_bind; intros ?). now apply yields_ret.
Qed.

(** C6. [main] always returns, and its exit code is 0 when the [try] block
    runs to its end (whatever the number of captured instructions) and 1 when
    an exception of any class (a [TimeoutException], another
    [WebDriverException], any other [Exception]) leaves the [try] block; it
    returns no other code. *)
Theorem exit_codes w s :
  ∃ code s',
    main w s = (Returns code, s')
    ∧ (code = 0%Z ∨ code = 1%Z)
    ∧ match main_try w main_options (try_entry s) with
      | (Returns _, _) => code = 0%Z
      | (Raises e, _) => code = 1%Z ∧ Printed (except_line e) ∈ log s'
      end.
Proof.
  rewrite main_run.
  destruct (main_try w main_options (try_entry s)) as [[code|e] s1] eqn:Hrun.
  - apply main_try_yields_0 in Hrun as ->. eexists _, _. eauto.
  - eexists _, _. split; [reflexivity|]. split; [auto|]. split; [reflexivity|].
    apply log_finalized. simpl. apply elem_of_app. right. constructor.
Qed.

(** *** The session *)

Lemma driver_effect a s : driver (effect a s) = driver s.
Proof. now destruct a. Qed.

Lemma opens_bind w {A B} (m : M A) (f : A → M B) :
  opens w m → (∀ a, stable driver (f a)) → opens w (m ≫= f).
Proof.
  intros Hm Hf s r s'. unfold mbind, M_bind.
  destruct (m s) as [[a|e] s1] eqn:E.
  - intros Hrun Hok. rewrite (Hf _ _ _ _ Hrun). eapply Hm; eauto.
  - intros [= <- <-] Hok. eapply Hm; eauto.
Qed.

Lemma Chrome_ok w options s :
  raises w (clock s) (NewChrome options) = None →
  Chrome w options s
  = (Returns (ChromeDriver options),
     set_session Active (tick (emit (Called (NewChrome options)) s))).
Proof. intros Hok. unfold Chrome, act, mbind, M_bind. now rewrite Hok. Qed.

Lemma Chrome_fails w options s x :
  raises w (clock s) (NewChrome options) = Some x →
  Chrome w options s
  = (Raises x, tick (emit (Called (NewChrome options)) s)).
Proof. intros Hko. unfold Chrome, act, mbind, M_bind. now rewrite Hko. Qed.

Lemma opens_main_open_directions w :
  opens w (main_open_directions w main_options).
Proof.
  intros s r s' Hrun Hok. unfold main_open_directions in Hrun.
  rewrite (bind_returns _ _ _ _ _ (Chrome_ok w _ s Hok)) in Hrun.
  rewrite (bind_returns (assign_driver _) _ _ tt _ eq_refl) in Hrun.
  assert (Hrest : ∀ d, stable driver
    (print "Opening Google Maps...";;
     act w (Get "https://maps.google.com");;
     try_click_optional w d consent_buttons 5;;
     directions_button ←
       wait_for_any_clickable_element w d directions_buttons 25;
     click w directions_button;;
     print "Clicked Directions.";;
     start_input ← wait_for_any_element w d start_inputs 25;
     clear w start_input;;
     send_keys w start_input (Text "Koramangala, Bangalore");;
     send_keys w start_input ENTER;;
     print "Entered starting location.";;
     destination_input ← wait_for_any_element w d destination_inputs 25;
     clear w destination_input;;
     send_keys w destination_input (Text "91 Springboard, Vikhroli");;
     send_keys w destination_input ENTER;;
     print "Entered destination.";;
     until w 30 (λ drv, Str.contains "/dir/" (current_url drv));;
     mret d)) by (intros d; frame).
  now rewrite (Hrest _ _ _ _ Hrun).
Qed.

Lemma opens_main_try w : opens w (main_try w main_options).
Proof.
  unfold main_try, main_select_route.
  apply opens_bind; [|apply driver_main_capture].
  apply opens_bind; [apply opens_main_open_directions|]. intros d. frame.
Qed.

Lemma main_try_unopened w s x :
  raises w (clock s) (NewChrome main_options) = Some x →
  main_try w main_options s
  = (Raises x, tick (emit (Called (NewChrome main_options)) s)).
Proof.
  intros Hko. unfold main_try, main_select_route, main_open_directions.
  do 3 apply bind_raises. now apply Chrome_fails.
Qed.

(** C9. Whatever way [main] ends, a browser session that was created has
    been closed when the exit code is returned: [driver.quit()] is the last
    call of the run and the session has ended.  When the session could not be
    created there is nothing to close, and the session is as it was. *)
Theorem session_closed_on_every_exit w s :
  ∃ code s',
    main w s = (Returns code, s')
    ∧ match raises w (clock s) (NewChrome main_options) with
      | None => session s' = Ended ∧ last (log s') = Some (Called Quit)
      | Some _ => session s' = session s ∧ code = 1%Z
      end.
Proof.
  rewrite main_run.
  destruct (raises w (clock s) (NewChrome main_options)) as [x|] eqn:Hnew.
  - rewrite (main_try_unopened w (try_entry s) x Hnew).
    eexists _, _. split; [reflexivity|]. split; reflexivity.
  - destruct (main_try w main_options (try_entry s)) as [[code|e] s1] eqn:Hrun;
      pose proof (opens_main_try w _ _ _ Hrun Hnew) as Hdriver;
      eexists _, _; (split; [reflexivity|]);
      unfold finalized;
      cbn [driver emit]; rewrite Hdriver;
      cbn [effect set_session tick emit session log];
      (split; [reflexivity | apply last_snoc]).
Qed.

(** *** Routes that never show *)

(** C8. When the directions view has been reached and no element matches the
    route-card locator at any poll of the 30-unit wait, [main] returns 1
    through the timeout clause and the files are as they were before the
    run: neither the spreadsheet nor the screenshot is written. *)
Theorem no_routes_no_outputs w s driver s1 :
  main_open_directions w main_options (try_entry s) = (Returns driver, s1) →
  (∀ k, k ≤ polls w 30 →
        find_elements (page w (clock s1 + k)) route_cards_locator = []) →
  ∃ s',
    main w s = (Returns 1%Z, s')
    ∧ files s' = files s
    ∧ Printed timeout_line ∈ log s'.
Proof.
  intros Hopen Hnever.
  assert (Hwait : wait_for_any_elements w driver [route_cards_locator] 30 s1
                  = (Raises timeout_error, Nat.iter (polls w 30) tick s1)).
  { apply until_from_times_out. intros k Hk. unfold polled.
    rewrite locate_all_none; [reflexivity|].
    constructor; [now apply Hnever | constructor]. }
  assert (Htry : main_try w main_options (try_entry s)
                 = (Raises timeout_error, Nat.iter (polls w 30) tick s1)).
  { unfold main_try, main_select_route. apply bind_raises.
    rewrite (bind_returns _ _ _ _ _ Hopen). now apply bind_raises. }
  rewrite main_run, Htry. eexists. split; [reflexivity|]. split.
  - rewrite files_finalized. cbn [files emit].
    rewrite (proj_ticks files (λ _, eq_refl)).
    apply (files_main_open_directions _ _ _ _ _ Hopen).
  - apply log_finalized. cbn [log emit]. apply elem_of_app. right. constructor.
Qed.

(** *** Steps that never show *)

Lemma act_ok w a s :
  raises w (clock s) a = None →
  act w a s = (Returns tt, effect a (tick (emit (Called a) s))).
Proof. intros Hok. unfold act. now rewrite Hok. Qed.

(** With no failing call, [try_click_optional] returns. *)
Lemma try_click_optional_unfailing w driver locators timeout s :
  (∀ t a, clock s ≤ t → raises w t a = None) →
  ∃ b s',
    try_click_optional w driver locators timeout s = (Returns b, s')
    ∧ clock s ≤ clock s'.
Proof.
  intros Hok.
  pose proof (try_click_optional_run w driver locators timeout s) as Hrun.
  destruct (wait_for_any_clickable_element w driver locators timeout s)
    as [[v|x] s1] eqn:Hwait;
    unfold wait_for_any_clickable_element, until in Hwait.
  - apply until_from_returned in Hwait as (k & _ & -> & _).
    destruct Hrun as (e & _ & Hclick).
    rewrite act_ok in Hclick by (apply Hok; rewrite clock_ticks; lia).
    eexists _, _. split; [exact Hclick|].
    simpl. rewrite clock_ticks. lia.
  - apply until_from_raised in Hwait as (_ & -> & _).
    eexists _, _. split; [exact Hrun|]. rewrite clock_ticks. lia.
Qed.

Lemma output_paths_differ base :
  path_join base excel_name ≠ path_join base screenshot_name.
Proof.
  unfold path_join. induction base as [|c base IH]; simpl; [discriminate|].
  intros [= Heq]. now apply IH.
Qed.

(** C7. When a route has been selected and no step element shows at any poll
    of the 60-unit wait, the timeout of that wait is swallowed: provided no
    later call fails, [main] returns 0, the spreadsheet written holds the
    header row only, and the screenshot is written, at the full size of the
    page content. *)
Theorem degraded_run_still_exports w s driver s2 :
  main_select_route w main_options (try_entry s) = (Returns driver, s2) →
  let s3 := (try_click_optional w driver steps_toggles 5 s2).2 in
  let excel_path := path_join (base_dir w) excel_name in
  let screenshot_path := path_join (base_dir w) screenshot_name in
  let size := content_size (page w (S (clock s3 + polls w 60))) in
  (∀ k, k ≤ polls w 60 →
        find_elements (page w (clock s3 + k)) step_locator = []) →
  (∀ t a, clock s2 ≤ t → raises w t a = None) →
  ∃ s',
    main w s = (Returns 0%Z, s')
    ∧ files s'
      = <[ screenshot_path := Png size ]>
          (<[ excel_path := Xlsx only_header ]> (files s))
    ∧ files s' !! excel_path = Some (Xlsx only_header)
    ∧ files s' !! screenshot_path = Some (Png size)
    ∧ Printed no_steps_line ∈ log s'.
Proof.
  intros Hsel s3 excel_path screenshot_path size Hnever Hok.
  destruct (try_click_optional_unfailing w driver steps_toggles 5 s2 Hok)
    as (b & s3' & Hclick & Hclock).
  assert (s3 = s3') as Hs3 by (unfold s3; now rewrite Hclick).
  clearbody s3. subst s3'.
  assert (Hsteps : main_step_elements w driver s3
                   = (Returns [],
                      emit (Printed no_steps_line)
                        (Nat.iter (polls w 60) tick s3))).
  { unfold main_step_elements, try_except.
    rewrite (bind_raises _ _ s3 timeout_error (Nat.iter (polls w 60) tick s3)).
    - reflexivity.
    - apply until_from_times_out. intros k Hk. unfold polled.
      now rewrite Hnever. }
  assert (Hfiles : ∃ s',
    main w s = (Returns 0%Z, s')
    ∧ files s'
      = <[ screenshot_path := Png size ]>
          (<[ excel_path := Xlsx only_header ]> (files s))
    ∧ Printed no_steps_line ∈ log s').
  { rewrite main_run. unfold main_try.
    rewrite (bind_returns _ _ _ _ _ Hsel). unfold main_capture.
    rewrite (bind_returns _ _ _ _ _ Hclick).
    rewrite (bind_returns _ _ _ _ _ Hsteps).
    unfold save_instructions_to_excel, save_full_page_screenshot,
      execute_cdp_cmd.
    unfold mbind, M_bind, observe, print, mret, M_ret, lift.
    cbn [capture truth list_truthy negb].
    rewrite (instructions_workbook_exported [] (List.Forall_nil _)).
    cbv beta iota.
    unfold save_screenshot, try_except, mbind, M_bind, mret, M_ret.
    repeat (rewrite act_ok
              by (apply Hok; cbn [clock emit tick effect set_window write_file];
                  rewrite ?clock_ticks; lia);
            cbv beta iota).
    eexists. split; [reflexivity|]. split.
    - rewrite files_finalized.
      cbn [files emit tick effect set_window write_file window_size clock].
      rewrite clock_ticks, (proj_ticks files (λ _, eq_refl)).
      rewrite (stable_try_click_optional files (λ _, eq_refl) (λ _ _, eq_refl)
                 _ _ _ _ _ _ _ Hclick).
      rewrite (files_main_select_route _ _ _ _ _ Hsel).
      fold size. now rewrite <- surjective_pairing.
    - apply log_finalized.
      cbn [log emit tick effect set_window write_file].
      in_log. }
  destruct Hfiles as (s' & Hmain & Hfiles & Hlog).
  exists s'. split; [exact Hmain|]. split; [exact Hfiles|].
  rewrite Hfiles. split; [|split; [|exact Hlog]].
  - rewrite lookup_insert_ne by (symmetry; apply output_paths_differ).
    apply lookup_insert_eq.
  - apply lookup_insert_eq.
Qed.

(** * The statements on the mock page layer *)

Lemma first_matching_candidate_decides_witness :
  (wait_for_any_element Mock.happy Mock.chrome start_inputs 25 Mock.start
   = (Returns (Val 2), Mock.start)
   ∧ wait_for_any_elements Mock.happy Mock.chrome start_inputs 25 Mock.start
     = (Returns (Val [2]), Mock.start))
  ∧ (wait_for_any_element Mock.happy Mock.chrome consent_buttons 5 Mock.start
     = (Raises timeout_error, Nat.iter 10 tick Mock.start)
     ∧ wait_for_any_elements Mock.happy Mock.chrome consent_buttons 5 Mock.start
       = (Raises timeout_error, Nat.iter 10 tick Mock.start)).
Proof.
  split.
  - apply (proj1 (first_matching_candidate_decides
                    Mock.happy Mock.chrome start_inputs 25 Mock.start)
             0
             [ (CSS_SELECTOR, "input[aria-label^='Choose starting point']");
               (CSS_SELECTOR, "input[aria-label^='Starting point']");
               (CSS_SELECTOR,
                "input.tactile-searchbox-input[aria-label*='starting']") ]
             (CSS_SELECTOR, "input.tactile-searchbox-input") [] 2 []).
    + apply Nat.le_0_l.
    + intros j Hj. inversion Hj.
    + reflexivity.
    + repeat constructor.
    + reflexivity.
  - apply (proj2 (first_matching_candidate_decides
                    Mock.happy Mock.chrome consent_buttons 5 Mock.start)).
    intros k _. repeat constructor.
Defined.

Lemma clickable_wait_returns_usable_witness :
  (∃ e before after,
      Val 1 = Val e
      ∧ scan (Mock.page_with [10; 11] [20; 21; 22; 23; 24; 25]) directions_buttons
        = before ++ e :: after
      ∧ Forall (unusable (Mock.page_with [10; 11] [20; 21; 22; 23; 24; 25])) before
      ∧ is_displayed (Mock.page_with [10; 11] [20; 21; 22; 23; 24; 25]) e = true
      ∧ is_enabled (Mock.page_with [10; 11] [20; 21; 22; 23; 24; 25]) e = true)
  ∧ wait_for_any_clickable_element Mock.happy Mock.chrome directions_buttons 25
      Mock.start
    = (Returns (Val 1), Mock.start)
  ∧ wait_for_any_clickable_element Mock.happy Mock.chrome consent_buttons 5
      Mock.start
    = (Raises timeout_error, Nat.iter 10 tick Mock.start).
Proof.
  split; [|split].
  - apply (proj1 (clickable_wait_returns_usable
                    Mock.happy Mock.chrome directions_buttons 25 Mock.start)
             (Val 1) Mock.start).
    reflexivity.
  - apply (proj1 (proj2 (clickable_wait_returns_usable
                           Mock.happy Mock.chrome directions_buttons 25
                           Mock.start))
             0 [7] 1 []).
    + apply Nat.le_0_l.
    + intros j Hj. inversion Hj.
    + reflexivity.
    + repeat constructor.
    + reflexivity.
    + reflexivity.
  - apply (proj2 (proj2 (clickable_wait_returns_usable
                           Mock.happy Mock.chrome consent_buttons 5
                           Mock.start))).
    intros k _. constructor.
Defined.

Lemma try_click_optional_outcomes_witness :
  try_click_optional Mock.happy Mock.chrome consent_buttons 5 Mock.start
  = (Returns false, Nat.iter 10 tick Mock.start)
  ∧ try_click_optional Mock.happy Mock.chrome directions_buttons 5 Mock.start
    = (Returns true, tick (emit (Called (Click 1)) Mock.start)).
Proof.
  split.
  - apply (proj1 (try_click_optional_outcomes
                    Mock.happy Mock.chrome consent_buttons 5 Mock.start)).
    intros k _. constructor.
  - apply (proj2 (proj2 (try_click_optional_outcomes
                           Mock.happy Mock.chrome directions_buttons 5
                           Mock.start))).
    exists 1, Mock.start. split; reflexivity.
Defined.

(** C3, as stated, fails: a click issued on a resolved element need not
    give [True].  When that click raises a [TimeoutException] the result is
    [False], and when it raises anything else the exception leaves
    [try_click_optional]. *)
Lemma click_issued_without_true :
  wait_for_any_clickable_element Faults.slow_click Mock.chrome
    directions_buttons 5 Mock.start
  = (Returns (Val 1), Mock.start)
  ∧ try_click_optional Faults.slow_click Mock.chrome directions_buttons 5
      Mock.start
    = (Returns false, tick (emit (Called (Click 1)) Mock.start))
  ∧ try_click_optional Faults.blocked_click Mock.chrome directions_buttons 5
      Mock.start
    = (Raises (Exn WebDriverException "element click intercepted"),
       tick (emit (Called (Click 1)) Mock.start)).
Proof. repeat split; vm_compute; reflexivity. Qed.

Lemma wait_for_any_elements_nonempty_witness :
  (∃ e es, Val [10; 11] = Val (e :: es))
  ∧ routes_guard (Val [10; 11]) Mock.start = (Returns tt, Mock.start).
Proof.
  apply (wait_for_any_elements_nonempty
           Mock.happy Mock.chrome [route_cards_locator] 30 Mock.start).
  reflexivity.
Defined.

(** C4, as stated, fails: a padded step text is captured trimmed, so the
    captured sequence is not a subsequence of the raw texts. *)
Lemma capture_is_not_a_subsequence_of_raw_texts :
  capture Mock.padded [0] [] = [ "Turn left" ]
  ∧ claimed_capture (text Mock.padded <$> [0]) = [ " Turn left" ]
  ∧ ¬ capture Mock.padded [0] [] `sublist_of` text Mock.padded <$> [0].
Proof.
  split; [reflexivity|]. split; [reflexivity|].
  intros Hsub. vm_compute in Hsub.
  inversion Hsub as [| |x l1 l2 Hrest]; subst. inversion Hrest.
Qed.

Lemma capture_trims_and_filters_witness :
  capture (Mock.page_with [] []) [20; 21; 22; 23; 24; 25] []
  = [ "Turn left"; "Continue straight" ].
Proof.
  apply (proj2 (capture_trims_and_filters
                  (Mock.page_with [] []) [20; 21; 22; 23; 24; 25])).
  reflexivity.
Defined.

(** C5, as stated, fails: an instruction with a vertical tab in it, which
    trimming keeps, is refused by its cell, and nothing is saved. *)
Lemma export_refuses_a_control_character :
  let text := ("Turn" ++ String "011" "left")%string in
  Str.strip text = text
  ∧ save_instructions_to_excel Mock.happy [ text ] "out.xlsx" Mock.start
    = (Raises (IllegalCharacterError text), Mock.start).
Proof. split; vm_compute; reflexivity. Qed.

Lemma excel_export_rows_witness :
  ∃ s',
    save_instructions_to_excel Mock.happy [ "A"; "B" ] "out.xlsx" Mock.start
    = (Returns tt, s')
    ∧ files s' !! "out.xlsx" = Some (Xlsx (exported [ "A"; "B" ]))
    ∧ rows <$> sheets (exported [ "A"; "B" ])
      = [ [ header; [ CInt 1; CStr "A" ]; [ CInt 2; CStr "B" ] ] ].
Proof.
  destruct (excel_export_rows Mock.happy [ "A"; "B" ] "out.xlsx" Mock.start)
    as (r & s' & Hrun & _ & _ & Hsave & Hrows).
  { repeat (constructor;
            [split; [apply N.leb_le; reflexivity | reflexivity]|]).
    constructor. }
  destruct (Hsave eq_refl) as [-> Hfiles].
  exists s'. split; [exact Hrun|]. split.
  - rewrite Hfiles. apply lookup_insert_eq.
  - apply Hrows. reflexivity.
Defined.

Lemma degraded_run_still_exports_witness :
  ∃ s',
    main Mock.no_steps Mock.start = (Returns 0%Z, s')
    ∧ files s' !! "/home/qa/PartB_Automation/driving_instructions.xlsx"
      = Some (Xlsx only_header)
    ∧ files s' !! "/home/qa/PartB_Automation/route_screenshot.png"
      = Some (Png (1280, 4000)%Z).
Proof.
  destruct (degraded_run_still_exports Mock.no_steps Mock.start Mock.chrome
              (main_select_route Mock.no_steps main_options
                 (try_entry Mock.start)).2)
    as (s' & Hmain & _ & Hexcel & Hshot & _).
  - vm_compute. reflexivity.
  - intros k _. reflexivity.
  - intros t a _. reflexivity.
  - exists s'. split; [exact Hmain|]. split; [exact Hexcel | exact Hshot].
Defined.

Lemma no_routes_no_outputs_witness :
  ∃ s', main Mock.no_routes Mock.start = (Returns 1%Z, s') ∧ files s' = ∅.
Proof.
  destruct (no_routes_no_outputs Mock.no_routes Mock.start Mock.chrome
              (main_open_directions Mock.no_routes main_options
                 (try_entry Mock.start)).2)
    as (s' & Hmain & Hfiles & _).
  - vm_compute. reflexivity.
  - intros k _. reflexivity.
  - exists s'. split; [exact Hmain | exact Hfiles].
Defined.

(** ** The exit paths of [main], one mock run each *)

Example main_completes :
  (main Mock.happy Mock.start).1 = Returns 0%Z
  ∧ session (main Mock.happy Mock.start).2 = Ended.
Proof. vm_compute. split; reflexivity. Qed.

Example main_times_out :
  (main Mock.no_routes Mock.start).1 = Returns 1%Z
  ∧ session (main Mock.no_routes Mock.start).2 = Ended
  ∧ last (log (main Mock.no_routes Mock.start).2) = Some (Called Quit).
Proof. vm_compute. repeat split; reflexivity. Qed.

Example main_driver_error :
  (main Mock.no_browser Mock.start).1 = Returns 1%Z
  ∧ session (main Mock.no_browser Mock.start).2 = NotStarted
  ∧ last (log (main Mock.no_browser Mock.start).2)
    = Some (Printed "WebDriver error: chromedriver not found").
Proof. vm_compute. repeat split; reflexivity. Qed.

Example main_unexpected_error :
  (main Mock.locked_file Mock.start).1 = Returns 1%Z
  ∧ session (main Mock.locked_file Mock.start).2 = Ended
  ∧ Printed "Unexpected error: Permission denied"
    ∈ log (main Mock.locked_file Mock.start).2
  ∧ files (main Mock.locked_file Mock.start).2 = ∅.
Proof.
  split; [vm_compute; reflexivity|]. split; [vm_compute; reflexivity|].
  split; [|vm_compute; reflexivity].
  apply list_elem_of_In. vm_compute.
  repeat first [ left; reflexivity | right ].
Qed.

(** A picture that cannot be written goes unnoticed: the run prints that
    it saved the screenshot and ends with 0, with the spreadsheet alone
    written. *)
Example main_drops_a_failed_picture :
  let s' := (main Faults.read_only_dir Mock.start).2 in
  (main Faults.read_only_dir Mock.start).1 = Returns 0%Z
  ∧ files s' !! path_join (base_dir Faults.read_only_dir) screenshot_name
    = None
  ∧ is_Some (files s' !! path_join (base_dir Faults.read_only_dir) excel_name)
  ∧ Printed "Saved screenshot to route_screenshot.png" ∈ log s'.
Proof.
  cbv zeta. split; [vm_compute; reflexivity|].
  split; [vm_compute; reflexivity|].
  split; [vm_compute; eauto|].
  apply list_elem_of_In. vm_compute.
  repeat first [ left; reflexivity | right ].
Qed.

(** * Further properties *)

(** ** How the waits relate *)

Lemma until_from_more w {A} `{Truthy A} (method : Page → A) n n' s v s' :
  n ≤ n' →
  until_from w method n s = (Returns v, s') →
  until_from w method n' s = (Returns v, s').
Proof.
  intros Hle Hrun.
  apply until_from_returned in Hrun as (k & Hk & -> & -> & Htruth & Hbefore).
  apply until_from_returns; [lia | done | done].
Qed.

(** Two callbacks that are truthy on the same pages end their waits at the
    same poll. *)
Lemma until_from_same_polls w {A B} `{Truthy A} `{Truthy B}
  (f : Page → A) (g : Page → B) n s :
  (∀ p, truth (g p) = truth (f p)) →
  match until_from w f n s with
  | (Returns _, s') =>
      ∃ k, s' = Nat.iter k tick s
           ∧ until_from w f n s = (Returns (f (page w (clock s + k))), s')
           ∧ until_from w g n s = (Returns (g (page w (clock s + k))), s')
  | (Raises x, s') => until_from w g n s = (Raises x, s')
  end.
Proof.
  intros Hsame.
  destruct (until_from_cases w f n s) as [(k & Hk & Hb & Ht & ->) | [Hall ->]].
  - exists k. split; [reflexivity|]. split; [reflexivity|].
    apply until_from_returns; [done | |].
    + intros j Hj. unfold polled in *. rewrite Hsame. auto.
    + unfold polled in *. now rewrite Hsame.
  - apply until_from_times_out. intros k Hk. unfold polled in *.
    rewrite Hsame. auto.
Qed.

Lemma locate_first_of_all drv locators :
  locate_first drv locators
  = match locate_all drv locators with
    | Val (e :: _) => Val e
    | _ => PyFalse
    end.
Proof.
  induction locators as [|c rest IH]; simpl; [reflexivity|].
  now destruct (find_elements drv c).
Qed.

Lemma truth_locate_first drv locators :
  truth (locate_first drv locators) = truth (locate_all drv locators).
Proof.
  rewrite locate_first_of_all.
  destruct (locate_all drv locators) as [l|] eqn:E; [|reflexivity].
  apply locate_all_nonempty in E as (e & es & ->). reflexivity.
Qed.

(** X1. [wait_for_any_element] and [wait_for_any_elements] end at the same
    poll: when the one returns a list, the other returns its first element
    in the same state, and when the one raises, so does the other. *)
Theorem single_and_plural_waits_agree w driver locators timeout s :
  match wait_for_any_elements w driver locators timeout s with
  | (Returns (Val (e :: _)), s') =>
      wait_for_any_element w driver locators timeout s = (Returns (Val e), s')
  | (Returns _, _) => False
  | (Raises x, s') =>
      wait_for_any_element w driver locators timeout s = (Raises x, s')
  end.
Proof.
  unfold wait_for_any_elements, wait_for_any_element, until.
  pose proof (until_from_same_polls w
                (λ drv, locate_all drv locators)
                (λ drv, locate_first drv locators)
                (polls w timeout) s
                (λ p, truth_locate_first p locators)) as Hsame.
  destruct (until_from w (λ drv, locate_all drv locators) (polls w timeout) s)
    as [[v|x] s'] eqn:Hall; [|exact Hsame].
  destruct Hsame as (k & _ & [= Hv] & Hfirst).
  apply until_from_returned in Hall as (_ & _ & _ & _ & Htruth & _).
  rewrite Hfirst, locate_first_of_all, <- Hv.
  destruct v as [[|e es]|]; try discriminate. reflexivity.
Qed.

Lemma locate_first_false drv locators :
  truth (locate_first drv locators) = false → Forall (unmatched drv) locators.
Proof.
  induction locators as [|c rest IH]; simpl; [constructor|].
  destruct (find_elements drv c) eqn:E; [|discriminate].
  intros Hrest. constructor; auto.
Qed.

Lemma scan_unmatched drv locators :
  Forall (unmatched drv) locators → scan drv locators = [].
Proof.
  unfold scan. induction 1 as [|c rest Hc _ IH]; simpl; [reflexivity|].
  now rewrite Hc, IH.
Qed.

(** A usable element is a matched element. *)
Lemma truth_clickable_first drv locators :
  truth (locate_first_clickable drv locators) = true →
  truth (locate_first drv locators) = true.
Proof.
  intros Hclick. destruct (truth (locate_first drv locators)) eqn:E; [done|].
  apply locate_first_false, scan_unmatched in E.
  rewrite locate_first_clickable_scan, E in Hclick. discriminate.
Qed.

(** X2. The clickable wait is never quicker than the plain wait on the same
    candidates: when it returns, the plain wait returns too, at that poll or
    an earlier one; and when the plain wait times out, so does the clickable
    wait. *)
Theorem clickable_wait_is_no_quicker w driver locators timeout s :
  (∀ v s',
      wait_for_any_clickable_element w driver locators timeout s
      = (Returns v, s') →
      ∃ v' s'',
        wait_for_any_element w driver locators timeout s = (Returns v', s'')
        ∧ clock s'' ≤ clock s')
  ∧ (∀ x s',
        wait_for_any_element w driver locators timeout s = (Raises x, s') →
        wait_for_any_clickable_element w driver locators timeout s
        = (Raises x, s')).
Proof.
  unfold wait_for_any_clickable_element, wait_for_any_element, until. split.
  - intros v s' Hrun.
    apply until_from_returned in Hrun as (k & Hk & -> & -> & Htruth & _).
    unfold polled in Htruth. apply truth_clickable_first in Htruth.
    destruct (until_from_cases w (λ drv, locate_first drv locators)
                (polls w timeout) s)
      as [(k' & Hk' & Hb & Ht & ->) | [Hall _]].
    + eexists _, _. split; [reflexivity|]. rewrite !clock_ticks.
      destruct (decide (k' ≤ k)) as [|Hgt]; [lia|].
      specialize (Hb k ltac:(lia)). unfold polled in Hb. congruence.
    + specialize (Hall k Hk). unfold polled in Hall. congruence.
  - intros x s' Hrun.
    apply until_from_raised in Hrun as (-> & -> & Hall).
    apply until_from_times_out. intros k Hk. specialize (Hall k Hk).
    unfold polled in *. apply locate_first_false, scan_unmatched in Hall.
    now rewrite locate_first_clickable_scan, Hall.
Qed.

(** X3. A larger allowance of polls never changes a wait that returns: the
    three waits return the same value in the same state under any timeout
    that leaves room for at least as many sleeps. *)
Theorem longer_timeout_keeps_result w driver locators timeout timeout' s :
  polls w timeout ≤ polls w timeout' →
  (∀ v s',
      wait_for_any_element w driver locators timeout s = (Returns v, s') →
      wait_for_any_element w driver locators timeout' s = (Returns v, s'))
  ∧ (∀ v s',
        wait_for_any_clickable_element w driver locators timeout s
        = (Returns v, s') →
        wait_for_any_clickable_element w driver locators timeout' s
        = (Returns v, s'))
  ∧ (∀ v s',
        wait_for_any_elements w driver locators timeout s = (Returns v, s') →
        wait_for_any_elements w driver locators timeout' s = (Returns v, s')).
Proof.
  intros Hle.
  unfold wait_for_any_element, wait_for_any_clickable_element,
    wait_for_any_elements, until.
  repeat split; intros v s'; now apply until_from_more.
Qed.

(** X4. Without candidates there is nothing to find: on the empty list the
    three waits raise a [TimeoutException] once the allowance is used up,
    whatever the page shows, and [try_click_optional] returns [False]
    without a click. *)
Theorem empty_candidates_time_out w driver timeout s :
  wait_for_any_element w driver [] timeout s
  = (Raises timeout_error, Nat.iter (polls w timeout) tick s)
  ∧ wait_for_any_clickable_element w driver [] timeout s
    = (Raises timeout_error, Nat.iter (polls w timeout) tick s)
  ∧ wait_for_any_elements w driver [] timeout s
    = (Raises timeout_error, Nat.iter (polls w timeout) tick s)
  ∧ try_click_optional w driver [] timeout s
    = (Returns false, Nat.iter (polls w timeout) tick s)
  ∧ log (Nat.iter (polls w timeout) tick s) = log s.
Proof.
  assert (Hclick : wait_for_any_clickable_element w driver [] timeout s
                   = (Raises timeout_error, Nat.iter (polls w timeout) tick s)).
  { apply clickable_wait_times_out. intros k _. constructor. }
  split; [|split; [exact Hclick | split; [|split]]].
  - apply until_from_times_out. now intros k _.
  - apply until_from_times_out. now intros k _.
  - pose proof (try_click_optional_run w driver [] timeout s) as Hrun.
    now rewrite Hclick in Hrun.
  - apply (proj_ticks log (λ _, eq_refl)).
Qed.

(** X5. [try_click_optional] swallows timeouts only.  When the wait has
    resolved an element and the click on it raises, the click has been
    issued; an exception that is not a [TimeoutException] leaves
    [try_click_optional], and a [TimeoutException] of the click itself is
    turned into [False] like a timeout of the wait. *)
Theorem try_click_optional_failed_click w driver locators timeout s e s1 x :
  wait_for_any_clickable_element w driver locators timeout s
  = (Returns (Val e), s1) →
  raises w (clock s1) (Click e) = Some x →
  try_click_optional w driver locators timeout s
  = (if isinstance x TimeoutException then Returns false else Raises x,
     tick (emit (Called (Click e)) s1)).
Proof.
  intros Hwait Hclick.
  pose proof (try_click_optional_run w driver locators timeout s) as Hrun.
  rewrite Hwait in Hrun. destruct Hrun as (e' & [= <-] & Hrun).
  unfold act in Hrun. rewrite Hclick in Hrun. rewrite Hrun.
  now destruct (isinstance x TimeoutException).
Qed.

(** ** Trimming *)

Lemma lstrip_starts_clean s : starts_clean (Str.lstrip s).
Proof.
  induction s as [|c rest IH]; simpl; [exact I|].
  destruct (Str.isspace c) eqn:E; [exact IH | exact E].
Qed.

Lemma lstrip_clean s : starts_clean s → Str.lstrip s = s.
Proof. destruct s as [|c rest]; simpl; [done|]. now intros ->. Qed.

Lemma rstrip_starts_clean s : starts_clean s → starts_clean (Str.rstrip s).
Proof.
  destruct s as [|c rest]; simpl; [done|]. intros Hc.
  destruct (Str.rstrip rest); [now rewrite Hc | exact Hc].
Qed.

Lemma rstrip_rstrip s : Str.rstrip (Str.rstrip s) = Str.rstrip s.
Proof.
  induction s as [|c rest IH]; simpl; [reflexivity|].
  destruct (Str.rstrip rest) as [|c' kept] eqn:E.
  - destruct (Str.isspace c) eqn:Hc; simpl; [reflexivity|]. now rewrite Hc.
  - change (Str.rstrip (String c (String c' kept)))
      with (match Str.rstrip (String c' kept) with
            | EmptyString =>
                if Str.isspace c then EmptyString else String c EmptyString
            | k => String c k
            end).
    now rewrite IH.
Qed.

Lemma strip_strip s : Str.strip (Str.strip s) = Str.strip s.
Proof.
  unfold Str.strip.
  rewrite (lstrip_clean (Str.rstrip (Str.lstrip s)))
    by apply rstrip_starts_clean, lstrip_starts_clean.
  apply rstrip_rstrip.
Qed.

(** ** More on the captured instructions *)

Lemma capture_app drv l1 l2 :
  capture drv (l1 ++ l2) [] = capture drv l1 [] ++ capture drv l2 [].
Proof.
  induction l1 as [|e rest IH]; [reflexivity|].
  rewrite <- app_comm_cons, !capture_cons, IH. now rewrite app_assoc.
Qed.

(** X6. Every captured instruction is clean: it is not empty, trimming it
    again changes nothing, and in lower case it is neither "directions" nor
    "steps"; and there are at most as many instructions as step elements. *)
Theorem captured_instructions_are_clean drv step_elements :
  Forall (λ t, t ≠ "" ∧ Str.strip t = t ∧ Str.lower t ∉ labels)
         (capture drv step_elements [])
  ∧ List.length (capture drv step_elements []) ≤ List.length step_elements.
Proof.
  induction step_elements as [|e rest [IHclean IHlength]];
    [split; [constructor | reflexivity]|].
  rewrite capture_cons.
  destruct (decide (instruction (Str.strip (text drv e)))) as [[Hne Hlab]|_].
  - split.
    + constructor; [|exact IHclean].
      split; [exact Hne|]. split; [apply strip_strip | exact Hlab].
    + simpl. lia.
  - split; [exact IHclean|]. simpl. lia.
Qed.

(** X7. The loop treats each step element on its own: the instructions of a
    list of step elements in two parts are those of the first part followed
    by those of the second, and running the loop on from instructions
    already captured only appends to them. *)
Theorem capture_is_elementwise drv l1 l2 instructions :
  capture drv (l1 ++ l2) [] = capture drv l1 [] ++ capture drv l2 []
  ∧ capture drv l2 instructions = instructions ++ capture drv l2 []
  ∧ capture drv (l1 ++ l2) [] = capture drv l2 (capture drv l1 []).
Proof.
  split; [apply capture_app|]. split; [apply capture_acc|].
  rewrite capture_app. symmetry. apply capture_acc.
Qed.

(** ** The screenshot *)

Lemma bind_cases {A B} (m : M A) (f : A → M B) s r s' :
  (m ≫= f) s = (r, s') →
  (∃ a s1, m s = (Returns a, s1) ∧ f a s1 = (r, s'))
  ∨ (∃ x, m s = (Raises x, s') ∧ r = Raises x).
Proof.
  unfold mbind, M_bind. destruct (m s) as [[a|x] s1]; [eauto|].
  intros [= <- <-]. eauto.
Qed.

Lemma act_cases w a s r s' :
  act w a s = (r, s') →
  (r = Returns tt ∧ raises w (clock s) a = None
   ∧ s' = effect a (tick (emit (Called a) s)))
  ∨ (∃ x, r = Raises x ∧ raises w (clock s) a = Some x
          ∧ s' = tick (emit (Called a) s)).
Proof.
  unfold act. destruct (raises w (clock s) a) as [x|]; intros [= <- <-]; eauto.
Qed.

(** [save_screenshot], by the two calls it makes. *)
Lemma save_screenshot_cases w filename s :
  let shoot := SaveScreenshot filename in
  let write := WritePng filename in
  let s1 := tick (emit (Called shoot) s) in
  let s2 := tick (emit (Called write) s1) in
  save_screenshot w filename s
  = match raises w (clock s) shoot with
    | Some x => (Raises x, s1)
    | None =>
        match raises w (S (clock s)) write with
        | None => (Returns true, effect write s2)
        | Some x =>
            (if isinstance x OSError then Returns false else Raises x, s2)
        end
    end.
Proof.
  cbv zeta.
  unfold save_screenshot, try_except, mbind, M_bind, act, mret, M_ret.
  cbn [clock tick emit effect].
  destruct (raises w (clock s) (SaveScreenshot filename)); [reflexivity|].
  cbn [clock tick emit effect].
  destruct (raises w (S (clock s)) (WritePng filename)) as [x|];
    [|reflexivity].
  cbn [find fst snd]. now destruct (isinstance x OSError).
Qed.

(** How far [save_full_page_screenshot] gets. *)
Lemma save_full_page_screenshot_outcome w driver file_path s r s' :
  save_full_page_screenshot w driver file_path s = (r, s') →
  let size := content_size (page w (clock s)) in
  let measure := ExecuteCdpCmd "Page.getLayoutMetrics" in
  let resize := SetWindowSize size in
  let shoot := SaveScreenshot file_path in
  let write := WritePng file_path in
  match r with
  | Returns _ =>
      raises w (clock s) measure = None
      ∧ raises w (S (clock s)) resize = None
      ∧ raises w (S (S (clock s))) shoot = None
      ∧ log s'
        = log s ++ [ Called measure; Called resize; Called shoot; Called write ]
      ∧ match raises w (S (S (S (clock s)))) write with
        | None => files s' = <[ file_path := Png size ]> (files s)
        | Some x => isinstance x OSError = true ∧ files s' = files s
        end
  | Raises x =>
      files s' = files s
      ∧ ((raises w (clock s) measure = Some x
          ∧ log s' = log s ++ [ Called measure ])
         ∨ (raises w (clock s) measure = None
            ∧ raises w (S (clock s)) resize = Some x
            ∧ log s' = log s ++ [ Called measure; Called resize ])
         ∨ (raises w (clock s) measure = None
            ∧ raises w (S (clock s)) resize = None
            ∧ raises w (S (S (clock s))) shoot = Some x
            ∧ log s'
              = log s ++ [ Called measure; Called resize; Called shoot ])
         ∨ (raises w (clock s) measure = None
            ∧ raises w (S (clock s)) resize = None
            ∧ raises w (S (S (clock s))) shoot = None
            ∧ raises w (S (S (S (clock s)))) write = Some x
            ∧ isinstance x OSError = false
            ∧ log s'
              = log s ++ [ Called measure; Called resize; Called shoot;
                           Called write ]))
  end.
Proof.
  intros Hrun size measure resize shoot write. revert Hrun.
  unfold save_full_page_screenshot, execute_cdp_cmd.
  unfold mbind at 1 2 3 4 5. unfold M_bind, observe, act, mret, M_ret.
  cbn [clock tick emit].
  destruct (raises w (clock s) (ExecuteCdpCmd "Page.getLayoutMetrics"))
    as [x|] eqn:Hm.
  { intros [= <- <-]. split; [reflexivity|]. left.
    cbn [log tick emit]. now rewrite <- ?app_assoc. }
  cbn [effect clock tick emit fst snd]. rewrite <- surjective_pairing.
  fold size.
  destruct (raises w (S (clock s)) (SetWindowSize size)) as [x|] eqn:Hr.
  { intros [= <- <-]. split; [reflexivity|]. right. left.
    cbn [log tick emit]. now rewrite <- ?app_assoc. }
  rewrite save_screenshot_cases.
  cbn [effect set_window clock tick emit].
  destruct (raises w (S (S (clock s))) (SaveScreenshot file_path))
    as [x|] eqn:Hs.
  { intros [= <- <-]. split; [reflexivity|]. right. right. left.
    cbn [log tick emit set_window]. now rewrite <- ?app_assoc. }
  destruct (raises w (S (S (S (clock s)))) (WritePng file_path))
    as [x|] eqn:Hw.
  - destruct (isinstance x OSError) eqn:Hos; intros [= <- <-].
    + unfold measure, resize, shoot, write. rewrite Hw.
      cbn [log files tick emit set_window]. now rewrite <- ?app_assoc.
    + split; [reflexivity|]. right. right. right.
      cbn [log tick emit set_window]. now rewrite <- ?app_assoc.
  - intros [= <- <-]. unfold measure, resize, shoot, write. rewrite Hw.
    cbn [log files tick emit set_window write_file window_size].
    now rewrite <- ?app_assoc.
Qed.

(** X8. [save_full_page_screenshot] measures the page, resizes the window to
    the content size it measured, asks the browser for the picture and
    writes it to the file, in this order, and stops at the first call that
    raises; only the file write is forgiven: when it fails with an
    [OSError], [save_screenshot] answers [False], the script drops the
    answer and returns as if the picture had been saved, with no file
    written.  A picture is at the path exactly when the write succeeded,
    and no other file changes. *)
Theorem screenshot_calls_in_order w driver file_path s :
  let size := content_size (page w (clock s)) in
  let measure := ExecuteCdpCmd "Page.getLayoutMetrics" in
  let resize := SetWindowSize size in
  let shoot := SaveScreenshot file_path in
  let write := WritePng file_path in
  ∃ r s',
    save_full_page_screenshot w driver file_path s = (r, s')
    ∧ match r with
      | Returns _ =>
          raises w (clock s) measure = None
          ∧ raises w (S (clock s)) resize = None
          ∧ raises w (S (S (clock s))) shoot = None
          ∧ log s'
            = log s
              ++ [ Called measure; Called resize; Called shoot; Called write ]
          ∧ match raises w (S (S (S (clock s)))) write with
            | None =>
                ∃ picture, files s' = <[ file_path := Png picture ]> (files s)
            | Some x => isinstance x OSError = true ∧ files s' = files s
            end
      | Raises x =>
          files s' = files s
          ∧ ((raises w (clock s) measure = Some x
              ∧ log s' = log s ++ [ Called measure ])
             ∨ (raises w (clock s) measure = None
                ∧ raises w (S (clock s)) resize = Some x
                ∧ log s' = log s ++ [ Called measure; Called resize ])
             ∨ (raises w (clock s) measure = None
                ∧ raises w (S (clock s)) resize = None
                ∧ raises w (S (S (clock s))) shoot = Some x
                ∧ log s'
                  = log s ++ [ Called measure; Called resize; Called shoot ])
             ∨ (raises w (clock s) measure = None
                ∧ raises w (S (clock s)) resize = None
                ∧ raises w (S (S (clock s))) shoot = None
                ∧ raises w (S (S (S (clock s)))) write = Some x
                ∧ isinstance x OSError = false
                ∧ log s'
                  = log s ++ [ Called measure; Called resize; Called shoot;
                               Called write ]))
      end.
Proof.
  intros size measure resize shoot write.
  destruct (save_full_page_screenshot w driver file_path s) as [r s'] eqn:Hrun.
  exists r, s'. split; [reflexivity|].
  pose proof (save_full_page_screenshot_outcome _ _ _ _ _ _ Hrun) as Hout.
  cbv zeta in Hout. destruct r as [[]|x]; [|exact Hout].
  destruct Hout as (Hm & Hr & Hs & Hlog & Hfiles).
  split; [exact Hm|]. split; [exact Hr|]. split; [exact Hs|].
  split; [exact Hlog|].
  unfold write. destruct (raises w _ (WritePng file_path)); [exact Hfiles|].
  eauto.
Qed.

(** ** The wait for the steps *)

(** How [main_step_elements] ends, by the wait and by the query after it. *)
Lemma main_step_elements_run w driver s :
  let query := FindElements step_locator in
  match until w 60 (λ drv, find_elements drv step_locator) s with
  | (Raises _, s1) =>
      main_step_elements w driver s
      = (Returns [], emit (Printed no_steps_line) s1)
  | (Returns _, s1) =>
      let s2 := tick (emit (Called query) s1) in
      match raises w (clock s1) query with
      | None =>
          main_step_elements w driver s
          = (Returns (find_elements (page w (clock s2)) step_locator), s2)
      | Some x =>
          main_step_elements w driver s
          = if isinstance x TimeoutException
            then (Returns [], emit (Printed no_steps_line) s2)
            else (Raises x, s2)
      end
  end.
Proof.
  unfold main_step_elements, driver_find_elements, try_except, mbind, M_bind,
    observe, act.
  destruct (until w 60 (λ drv, find_elements drv step_locator) s)
    as [[v|x] s1] eqn:Hwait.
  - cbn zeta. destruct (raises w (clock s1) (FindElements step_locator))
      as [x|]; [|reflexivity].
    simpl. now destruct (isinstance x TimeoutException).
  - unfold until in Hwait. apply until_from_raised in Hwait as (-> & _ & _).
    reflexivity.
Qed.

(** X9. The fallback to the empty list is for timeouts only, and for both
    steps of lines 180-183.  When no poll of the 60-unit wait shows a step
    element, the result is the empty list, after the print.  When the wait
    returns, the step elements are asked for once more, by a call of its
    own: its list, of the page as it is then and possibly empty, is the
    result, with no print; a [TimeoutException] of that call gives the empty
    list after the print; any other exception of it leaves the block. *)
Theorem step_elements_or_fallback w driver s :
  let wait := until w 60 (λ drv, find_elements drv step_locator) in
  let query := FindElements step_locator in
  ((∀ k, k ≤ polls w 60 →
         find_elements (page w (clock s + k)) step_locator = []) →
   main_step_elements w driver s
   = (Returns [],
      emit (Printed no_steps_line) (Nat.iter (polls w 60) tick s)))
  ∧ (∀ v s1,
        wait s = (Returns v, s1) →
        raises w (clock s1) query = None →
        main_step_elements w driver s
        = (Returns (find_elements (page w (S (clock s1))) step_locator),
           tick (emit (Called query) s1)))
  ∧ (∀ v s1 x,
        wait s = (Returns v, s1) →
        raises w (clock s1) query = Some x →
        main_step_elements w driver s
        = (if isinstance x TimeoutException then Returns [] else Raises x,
           if isinstance x TimeoutException
           then emit (Printed no_steps_line) (tick (emit (Called query) s1))
           else tick (emit (Called query) s1))).
Proof.
  intros wait query.
  pose proof (main_step_elements_run w driver s) as Hrun. cbn zeta in Hrun.
  fold wait query in Hrun. split; [|split].
  - intros Hnever.
    assert (wait s = (Raises timeout_error, Nat.iter (polls w 60) tick s))
      as Hwait.
    { apply until_from_times_out. intros k Hk. unfold polled.
      now rewrite Hnever. }
    now rewrite Hwait in Hrun.
  - intros v s1 Hwait Hok. now rewrite Hwait, Hok in Hrun.
  - intros v s1 x Hwait Hko. rewrite Hwait, Hko in Hrun. rewrite Hrun.
    now destruct (isinstance x TimeoutException).
Qed.

(** ** The files [main] leaves *)

(** How the export ends: a text is refused before anything is done, or the
    workbook of the texts as the cells keep them is handed to the save. *)
Lemma save_instructions_to_excel_cases w instructions file_path s :
  save_instructions_to_excel w instructions file_path s
  = match find (λ t, has_illegal_character (stored t)) instructions with
    | Some t => (Raises (IllegalCharacterError (stored t)), s)
    | None =>
        act w (WorkbookSave (exported (stored <$> instructions)) file_path) s
    end.
Proof.
  unfold save_instructions_to_excel, lift, mbind, M_bind.
  rewrite instructions_workbook_run.
  now destruct (find _ instructions).
Qed.

(** The run of [main_capture]: when it returns, the workbook of the
    instructions captured from the step elements it was given has been
    saved and the screenshot asked for; when it raises, the spreadsheet at
    most has been written. *)
Lemma main_capture_outcome w driver s r s' :
  main_capture w driver s = (r, s') →
  let excel_path := path_join (base_dir w) excel_name in
  let screenshot_path := path_join (base_dir w) screenshot_name in
  (∃ b s1 step_elements s2,
      r = Returns 0%Z
      ∧ try_click_optional w driver steps_toggles 5 s = (Returns b, s1)
      ∧ main_step_elements w driver s1 = (Returns step_elements, s2)
      ∧ let wb := exported (stored <$> capture (page w (clock s2))
                                          step_elements []) in
        raises w (clock s2) (WorkbookSave wb excel_path) = None
        ∧ files s' !! excel_path = Some (Xlsx wb)
        ∧ Called (WorkbookSave wb excel_path) ∈ log s'
        ∧ Called (SaveScreenshot screenshot_path) ∈ log s'
        ∧ match raises w (S (S (S (S (clock s2)))))
                  (WritePng screenshot_path) with
          | None =>
              files s' !! screenshot_path
              = Some (Png (content_size (page w (S (clock s2)))))
          | Some x =>
              isinstance x OSError = true
              ∧ files s' !! screenshot_path = files s !! screenshot_path
          end
        ∧ ∀ p, p ≠ excel_path → p ≠ screenshot_path →
               files s' !! p = files s !! p)
  ∨ (∃ x, r = Raises x
          ∧ (files s' = files s
             ∨ ∃ wb, files s' = <[ excel_path := Xlsx wb ]> (files s))).
Proof.
  intros Hrun excel_path screenshot_path. unfold main_capture in Hrun.
  apply bind_cases in Hrun as [(b & s1 & Hclick & Hrun) | (x & Hclick & ->)].
  2: { right. exists x. split; [reflexivity|]. left.
       apply (stable_try_click_optional files (λ _, eq_refl) (λ _ _, eq_refl)
                _ _ _ _ _ _ _ Hclick). }
  pose proof (stable_try_click_optional files (λ _, eq_refl) (λ _ _, eq_refl)
                _ _ _ _ _ _ _ Hclick) as Hf1.
  apply bind_cases in Hrun as [(l & s2 & Hsteps & Hrun) | (x & Hsteps & ->)].
  2: { right. exists x. split; [reflexivity|]. left. rewrite <- Hf1.
       apply (stable_main_step_elements files (λ _, eq_refl) (λ _ _, eq_refl)
                _ _ _ _ _ Hsteps). }
  pose proof (stable_main_step_elements files (λ _, eq_refl) (λ _ _, eq_refl)
                _ _ _ _ _ Hsteps) as Hf2.
  apply bind_cases in Hrun as [(ins & s3 & [= <- <-] & Hrun) | (x & [=] & _)].
  apply bind_cases in Hrun as [([] & s4 & Hprint & Hrun) | (x & Hprint & _)].
  2: { destruct (negb _); discriminate. }
  assert (files s4 = files s2 ∧ clock s4 = clock s2) as [Hf4 Hc4].
  { destruct (negb _); injection Hprint as <-; done. }
  apply bind_cases in Hrun as [([] & s5 & Hsave & Hrun) | (x & Hsave & ->)];
    rewrite save_instructions_to_excel_cases in Hsave;
    fold excel_path in Hsave;
    destruct (find _ (capture (page w (clock s2)) l [])) as [t|].
  - discriminate.
  - apply act_cases in Hsave as [(_ & Hok & ->) | (y & [=] & _)].
    rewrite Hc4 in Hok.
    apply bind_cases in Hrun as [([] & s6 & [= <-] & Hrun) | (x & [=] & _)].
    apply bind_cases in Hrun as [([] & s7 & Hshot & Hrun) | (x & Hshot & ->)].
    + apply save_full_page_screenshot_outcome in Hshot
        as (_ & _ & _ & Hlog & Hshot).
      apply bind_cases in Hrun as [([] & s8 & [= <-] & Hrun) | (x & [=] & _)].
      apply bind_cases in Hrun as [([] & s9 & [= <-] & Hrun) | (x & [=] & _)].
      injection Hrun as <- <-. left. exists b, s1, l, s2.
      split; [reflexivity|]. split; [exact Hclick|]. split; [exact Hsteps|].
      cbn zeta. split; [exact Hok|].
      cbn [clock files log emit tick effect write_file print] in Hlog, Hshot.
      cbn [files log emit print]. rewrite Hc4, Hf4, Hf2, Hf1 in Hshot.
      rewrite Hlog. fold screenshot_path. fold screenshot_path in Hshot.
      revert Hshot. destruct (raises w _ (WritePng _)) as [y|].
      * intros [Hos ->]. split; [apply lookup_insert_eq|].
        split; [in_log|]. split; [in_log|]. split; [split; [exact Hos|]|].
        -- apply lookup_insert_ne, output_paths_differ.
        -- intros p Hp Hp'. now rewrite lookup_insert_ne by done.
      * intros ->. split.
        { rewrite lookup_insert_ne by (symmetry; apply output_paths_differ).
          apply lookup_insert_eq. }
        split; [in_log|]. split; [in_log|].
        split; [apply lookup_insert_eq|].
        intros p Hp Hp'. now rewrite !lookup_insert_ne by done.
    + apply save_full_page_screenshot_outcome in Hshot as [Hf _].
      right. exists x. split; [reflexivity|]. right. eexists.
      rewrite Hf. cbn [files emit tick effect write_file].
      now rewrite Hf4, Hf2, Hf1.
  - injection Hsave as <- <-.
    right. eexists. split; [reflexivity|]. left. now rewrite Hf4, Hf2, Hf1.
  - apply act_cases in Hsave as [([=] & _) | (y & [= <-] & _ & ->)].
    right. exists x. split; [reflexivity|]. left.
    cbn [files emit tick]. now rewrite Hf4, Hf2, Hf1.
Qed.

(** X10. The exit code tells what the run did with its outputs.  With 0, a
    route was selected, the workbook of the instructions captured from the
    step elements the run ended up with (each text as a cell keeps it) was
    handed to the save, which returned, so that it is the file at the
    spreadsheet's path, and the screenshot was asked for; the picture is at
    the screenshot's path when its file write succeeded, and when that
    write failed with an [OSError] the run still ends with 0 and the path
    is as it was; only these two paths can have changed.  With 1, no path
    but the spreadsheet's has changed: in particular no screenshot was
    written. *)
Theorem exit_code_tells_outputs w s :
  let excel_path := path_join (base_dir w) excel_name in
  let screenshot_path := path_join (base_dir w) screenshot_name in
  ∃ code s',
    main w s = (Returns code, s')
    ∧ ((code = 0%Z
        ∧ ∃ driver s1 b s2 step_elements s3,
            main_select_route w main_options (try_entry s)
            = (Returns driver, s1)
            ∧ try_click_optional w driver steps_toggles 5 s1 = (Returns b, s2)
            ∧ main_step_elements w driver s2 = (Returns step_elements, s3)
            ∧ let wb := exported (stored <$> capture (page w (clock s3))
                                                step_elements []) in
              raises w (clock s3) (WorkbookSave wb excel_path) = None
              ∧ files s' !! excel_path = Some (Xlsx wb)
              ∧ Called (WorkbookSave wb excel_path) ∈ log s'
              ∧ Called (SaveScreenshot screenshot_path) ∈ log s'
              ∧ match raises w (S (S (S (S (clock s3)))))
                        (WritePng screenshot_path) with
                | None =>
                    ∃ picture, files s' !! screenshot_path = Some (Png picture)
                | Some x =>
                    isinstance x OSError = true
                    ∧ files s' !! screenshot_path
                      = files s !! screenshot_path
                end
              ∧ ∀ p, p ≠ excel_path → p ≠ screenshot_path →
                     files s' !! p = files s !! p)
       ∨ (code = 1%Z
          ∧ files s' !! screenshot_path = files s !! screenshot_path
          ∧ ∀ p, p ≠ excel_path → files s' !! p = files s !! p)).
Proof.
  cbv zeta. rewrite main_run.
  destruct (main_try w main_options (try_entry s)) as [r s1] eqn:Hrun.
  unfold main_try in Hrun.
  apply bind_cases in Hrun as [(d & s0 & Hsel & Hrun) | (x & Hsel & ->)].
  - pose proof (files_main_select_route _ _ _ _ _ Hsel) as Hf0.
    cbn [files try_entry set_driver emit] in Hf0.
    pose proof (main_capture_outcome _ _ _ _ _ Hrun) as Hout.
    cbv zeta in Hout.
    destruct Hout
      as [(b & s2 & l & s3 & -> & Hclick & Hsteps & Hok & Hx & Hl1 & Hl2
           & Hpng & Hp)
         | (x & -> & Hfiles)].
    + eexists _, _. split; [reflexivity|]. left. split; [reflexivity|].
      exists d, s0, b, s2, l, s3. rewrite files_finalized.
      split; [exact Hsel|]. split; [exact Hclick|]. split; [exact Hsteps|].
      split; [exact Hok|]. split; [exact Hx|].
      split; [now apply log_finalized|]. split; [now apply log_finalized|].
      split.
      * rewrite Hf0 in Hpng.
        destruct (raises w _ (WritePng _)); [exact Hpng | eauto].
      * intros p Hp1 Hp2. rewrite Hp by done. now rewrite Hf0.
    + eexists _, _. split; [reflexivity|]. right. split; [reflexivity|].
      rewrite files_finalized. cbn [files emit].
      destruct Hfiles as [-> | (wb & ->)]; rewrite Hf0; [done|]. split.
      * apply lookup_insert_ne, output_paths_differ.
      * intros p Hp. now apply lookup_insert_ne.
  - eexists _, _. split; [reflexivity|]. right. split; [reflexivity|].
    rewrite files_finalized. cbn [files emit].
    now rewrite (files_main_select_route _ _ _ _ _ Hsel).
Qed.


(** ** Where the exceptions come from *)

Section Sound.

Variable w : World.

Lemma sound_ret {A} (V : A → Prop) a : V a → sound w V (mret a).
Proof. intros HV s r s' [= <- <-]. exact HV. Qed.

Lemma sound_bind {A B} (V : A → Prop) (U : B → Prop) (m : M A) (f : A → M B) :
  sound w V m → (∀ a, V a → sound w U (f a)) → sound w U (m ≫= f).
Proof.
  intros Hm Hf s r s' Hrun.
  apply bind_cases in Hrun as [(a & s1 & Hma & Hfa) | (x & Hma & ->)].
  - apply Hm in Hma. exact (Hf a Hma _ _ _ Hfa).
  - exact (Hm _ _ _ Hma).
Qed.

Lemma sound_print line : sound w (λ _, True) (print line).
Proof. now intros s r s' [= <- <-]. Qed.

Lemma sound_assign_driver d : sound w (λ _, True) (assign_driver d).
Proof. now intros s r s' [= <- <-]. Qed.

Lemma sound_observe {A} (f : Page → A) : sound w (λ _, True) (observe w f).
Proof. now intros s r s' [= <- <-]. Qed.

Lemma sound_act a : sound w (λ _, True) (act w a).
Proof.
  intros s r s' Hrun.
  apply act_cases in Hrun as [(-> & _) | (x & -> & Hx & _)]; [exact I|].
  right. left. eauto.
Qed.

Lemma sound_until {A} `{Truthy A} timeout (method : Page → A) :
  sound w (λ v, truth v = true) (until w timeout method).
Proof.
  intros s r s'. unfold until.
  destruct (until_from_cases w method (polls w timeout) s)
    as [(k & _ & _ & Ht & ->) | [_ ->]]; intros [= <- <-];
    [exact Ht | now left].
Qed.

Lemma sound_try_click_optional driver locators timeout :
  sound w (λ _, True) (try_click_optional w driver locators timeout).
Proof.
  intros s r s' Hrun.
  pose proof (try_click_optional_run w driver locators timeout s) as Hcases.
  destruct (wait_for_any_clickable_element w driver locators timeout s)
    as [[v|x] s1].
  - destruct Hcases as (e & _ & Hcases).
    destruct (act w (Click e) s1) as [[[]|y] s2] eqn:Hact;
      rewrite Hcases in Hrun.
    + now injection Hrun as <- <-.
    + apply sound_act in Hact.
      destruct (isinstance y TimeoutException); now injection Hrun as <- <-.
  - rewrite Hcases in Hrun. now injection Hrun as <- <-.
Qed.

Lemma sound_main_step_elements driver :
  sound w (λ _, True) (main_step_elements w driver).
Proof.
  intros s r s' Hrun.
  pose proof (main_step_elements_run w driver s) as Hcases.
  cbn zeta in Hcases.
  destruct (until w 60 (λ drv, find_elements drv step_locator) s)
    as [[v|y] s1].
  - destruct (raises w (clock s1) (FindElements step_locator)) as [x|] eqn:Hx;
      rewrite Hcases in Hrun.
    + destruct (isinstance x TimeoutException); injection Hrun as <- <-;
        [exact I|]. right. left. eauto.
    + now injection Hrun as <- <-.
  - rewrite Hcases in Hrun. now injection Hrun as <- <-.
Qed.

Lemma sound_save_instructions_to_excel instructions file_path :
  sound w (λ _, True) (save_instructions_to_excel w instructions file_path).
Proof.
  intros s r s'. rewrite save_instructions_to_excel_cases.
  destruct (find _ instructions) as [t|].
  - intros [= <- <-]. right. right. eauto.
  - apply sound_act.
Qed.

Lemma sound_save_screenshot filename :
  sound w (λ _, True) (save_screenshot w filename).
Proof.
  intros s r s'. rewrite save_screenshot_cases.
  destruct (raises w (clock s) _) as [x|] eqn:Hshoot.
  { intros [= <- <-]. right. left. eauto. }
  destruct (raises w (S (clock s)) _) as [x|] eqn:Hwrite;
    [|now intros [= <- <-]].
  destruct (isinstance x OSError); intros [= <- <-]; [exact I|].
  right. left. eauto.
Qed.

(** One step of a chain: a primitive, then the rest with what it yielded. *)
Ltac sound_prim :=
  first
    [ apply sound_print | apply sound_assign_driver | apply sound_observe
    | apply sound_act | apply sound_until | apply sound_try_click_optional
    | apply sound_main_step_elements
    | apply sound_save_instructions_to_excel
    | apply sound_save_screenshot ].

Ltac sound_next :=
  eapply sound_bind; [solve [sound_prim] | cbv beta; intros ? ?].

Lemma sound_main_open_directions options :
  sound w (λ _, True) (main_open_directions w options).
Proof.
  unfold main_open_directions, Chrome.
  eapply sound_bind with (V := λ _, True).
  { sound_next. now apply sound_ret. }
  intros driver _. do 4 sound_next.
  eapply sound_bind; [apply sound_until|]. intros [button|] Hb; [|discriminate].
  do 2 sound_next.
  eapply sound_bind; [apply sound_until|]. intros [input|] Hi; [|discriminate].
  do 4 sound_next.
  eapply sound_bind; [apply sound_until|]. intros [input'|] Hi'; [|discriminate].
  do 5 sound_next. now apply sound_ret.
Qed.

Lemma sound_main_select_route options :
  sound w (λ _, True) (main_select_route w options).
Proof.
  unfold main_select_route.
  eapply sound_bind; [apply sound_main_open_directions|]. intros driver _.
  eapply sound_bind; [apply sound_until|].
  intros [[|card cards]|] Hcards; try discriminate.
  eapply sound_bind with (V := λ _, True);
    [exact (sound_ret (λ _, True) tt I)|]. intros _ _.
  eapply sound_bind with (V := λ _, True);
    [exact (sound_ret (λ _, True) card I)|]. intros first_card _.
  do 2 sound_next. now apply sound_ret.
Qed.

Lemma sound_main_capture driver :
  sound w (λ _, True) (main_capture w driver).
Proof.
  unfold main_capture, save_full_page_screenshot, execute_cdp_cmd.
  do 3 sound_next.
  eapply sound_bind with (V := λ _, True).
  { destruct (negb _); apply sound_print. }
  intros _ _. do 2 sound_next.
  eapply sound_bind with (V := λ _, True).
  { eapply sound_bind with (V := λ _, True).
    - do 2 sound_next. now apply sound_ret.
    - intros metrics _. do 2 sound_next. now apply sound_ret. }
  intros _ _. do 2 sound_next. now apply sound_ret.
Qed.

End Sound.

(** X11. The [try] block of [main] raises nothing of its own making: an
    exception that leaves it is the [TimeoutException] of a wait, or was
    raised by a driver or file call, or is the [IllegalCharacterError] of a
    cell that refuses a captured text.  The script's own guard on the route
    cards, and the attribute and index errors of calls on what the waits
    returned, never fire. *)
Theorem main_raises_nothing_of_its_own w s x s' :
  main_try w main_options s = (Raises x, s') →
  x = timeout_error
  ∨ (∃ t a, raises w t a = Some x)
  ∨ (∃ value, x = IllegalCharacterError value).
Proof.
  unfold main_try. intros Hrun.
  apply bind_cases in Hrun as [(driver & s1 & _ & Hrun) | (y & Hrun & [= <-])].
  - exact (sound_main_capture w driver _ _ _ Hrun).
  - exact (sound_main_select_route w main_options _ _ _ Hrun).
Qed.

(** ** What is logged *)

Lemma log_effect a s : log (effect a s) = log s.
Proof. now destruct a. Qed.

Section Appends.

Variable P : event → Prop.
Hypothesis P_print : ∀ line, P (Printed line).
Variable w : World.

Lemma appends_nothing {A} (m : M A) : stable log m → appends P m.
Proof.
  intros Hm s r s' Hrun. exists []. rewrite app_nil_r.
  split; [exact (Hm _ _ _ Hrun) | constructor].
Qed.

Lemma appends_ret {A} (a : A) : appends P (mret a).
Proof. apply appends_nothing. now intros s r s' [= <- <-]. Qed.

Lemma appends_raise {A} e : appends P (@raise A e).
Proof. apply appends_nothing. now intros s r s' [= <- <-]. Qed.

Lemma appends_assign_driver d : appends P (assign_driver d).
Proof. apply appends_nothing. now intros s r s' [= <- <-]. Qed.

Lemma appends_lift {A} (r : result A) : appends P (lift r).
Proof. apply appends_nothing. now intros s r' s' [= <- <-]. Qed.

Lemma appends_observe {A} (f : Page → A) : appends P (observe w f).
Proof. apply appends_nothing. now intros s r s' [= <- <-]. Qed.

Lemma appends_until {A} `{Truthy A} timeout (method : Page → A) :
  appends P (until w timeout method).
Proof. apply appends_nothing. now apply stable_until. Qed.

Lemma appends_print line : appends P (print line).
Proof.
  intros s r s' [= <- <-]. exists [Printed line]. split; [reflexivity|].
  repeat constructor. apply P_print.
Qed.

Lemma appends_act a : P (Called a) → appends P (act w a).
Proof.
  intros Ha s r s' Hrun. exists [Called a].
  split; [|repeat constructor; exact Ha].
  apply act_cases in Hrun as [(_ & _ & ->) | (x & _ & _ & ->)];
    now rewrite ?log_effect.
Qed.

Lemma appends_bind {A B} (m : M A) (f : A → M B) :
  appends P m → (∀ a, appends P (f a)) → appends P (m ≫= f).
Proof.
  intros Hm Hf s r s' Hrun.
  apply bind_cases in Hrun as [(a & s1 & Hma & Hfa) | (x & Hma & ->)].
  - destruct (Hm _ _ _ Hma) as (l1 & Hl1 & HP1).
    destruct (Hf a _ _ _ Hfa) as (l2 & Hl2 & HP2).
    exists (l1 ++ l2). rewrite Hl2, Hl1, app_assoc. split; [reflexivity|].
    apply Forall_app. auto.
  - exact (Hm _ _ _ Hma).
Qed.

Lemma appends_try_except {A} (body : M A) clauses :
  appends P body →
  Forall (λ cl, ∀ e, appends P (cl.2 e)) clauses →
  appends P (try_except body clauses).
Proof.
  intros Hbody Hclauses s r s'. unfold try_except.
  destruct (body s) as [[a|e] s1] eqn:E.
  - intros [= <- <-]. exact (Hbody _ _ _ E).
  - destruct (find _ clauses) as [cl|] eqn:Hfind.
    + intros Hrun. apply find_some in Hfind as [Hin _].
      rewrite List.Forall_forall in Hclauses.
      destruct (Hbody _ _ _ E) as (l1 & Hl1 & HP1).
      destruct (Hclauses cl Hin _ _ _ _ Hrun) as (l2 & Hl2 & HP2).
      exists (l1 ++ l2). rewrite Hl2, Hl1, app_assoc. split; [reflexivity|].
      apply Forall_app. auto.
    + intros [= <- <-]. exact (Hbody _ _ _ E).
Qed.

Hypothesis P_click : ∀ e, P (Called (Click e)).
Hypothesis P_clear : ∀ e, P (Called (Clear e)).
Hypothesis P_send_keys : ∀ e k, P (Called (SendKeys e k)).

Lemma appends_click v : appends P (click w v).
Proof. destruct v; [now apply appends_act | apply appends_raise]. Qed.

Lemma appends_clear v : appends P (clear w v).
Proof. destruct v; [now apply appends_act | apply appends_raise]. Qed.

Lemma appends_send_keys v k : appends P (send_keys w v k).
Proof. destruct v; [now apply appends_act | apply appends_raise]. Qed.

Lemma appends_getitem v i : appends P (getitem v i).
Proof.
  destruct v as [l|]; simpl; [|apply appends_raise].
  destruct (l !! i); [apply appends_ret | apply appends_raise].
Qed.

Lemma appends_routes_guard v : appends P (routes_guard v).
Proof.
  unfold routes_guard.
  destruct (negb _); [apply appends_raise | apply appends_ret].
Qed.

Lemma appends_try_click_optional driver locators timeout :
  appends P (try_click_optional w driver locators timeout).
Proof.
  unfold try_click_optional. apply appends_try_except.
  - apply appends_bind; [apply appends_until|]. intros v.
    apply appends_bind; [apply appends_click|]. intros ?. apply appends_ret.
  - repeat constructor. intros ?. apply appends_ret.
Qed.

Hypothesis P_find : ∀ l, P (Called (FindElements l)).

Lemma appends_main_step_elements driver :
  appends P (main_step_elements w driver).
Proof.
  unfold main_step_elements, driver_find_elements. apply appends_try_except.
  - apply appends_bind; [apply appends_until|]. intros ?.
    apply appends_bind; [now apply appends_act|]. intros ?.
    apply appends_observe.
  - repeat constructor. intros ?.
    apply appends_bind; [apply appends_print|]. intros ?. apply appends_ret.
Qed.

Hypothesis P_shoot : ∀ f, P (Called (SaveScreenshot f)).
Hypothesis P_write : ∀ f, P (Called (WritePng f)).

Lemma appends_save_screenshot filename :
  appends P (save_screenshot w filename).
Proof.
  unfold save_screenshot.
  apply appends_bind; [now apply appends_act|]. intros ?.
  apply appends_try_except.
  - apply appends_bind; [now apply appends_act|]. intros ?. apply appends_ret.
  - repeat constructor. intros ?. apply appends_ret.
Qed.

End Appends.

Ltac appends_step :=
  first
    [ apply appends_save_screenshot
    | apply appends_bind; [|intros ?]
    | apply appends_ret | apply appends_raise | apply appends_assign_driver
    | apply appends_lift
    | apply appends_print | apply appends_observe | apply appends_until
    | apply appends_click | apply appends_clear | apply appends_send_keys
    | apply appends_getitem | apply appends_routes_guard
    | apply appends_try_click_optional | apply appends_main_step_elements
    | apply appends_act
    | match goal with
      | |- appends _ (if ?b then _ else _) => destruct b
      end ].

Ltac appends_chain := repeat appends_step; try (intros; discriminate).

Lemma main_try_never_quits w options : appends not_quit (main_try w options).
Proof.
  unfold main_try, main_select_route, main_open_directions, Chrome,
    main_capture, save_instructions_to_excel, save_full_page_screenshot,
    execute_cdp_cmd, not_quit.
  appends_chain.
Qed.

(** X12. [driver.quit()] is called exactly once, as the last call of the
    run, when the session was created, and not at all when it was not:
    nothing before the end of the run is a call of [quit]. *)
Theorem quit_once_and_last w s :
  ∃ code s' body,
    main w s = (Returns code, s')
    ∧ Forall not_quit body
    ∧ log s'
      = log s ++ body
        ++ match raises w (clock s) (NewChrome main_options) with
           | None => [ Called Quit ]
           | Some _ => []
           end.
Proof.
  rewrite main_run.
  destruct (raises w (clock s) (NewChrome main_options)) as [x|] eqn:Hnew.
  - rewrite (main_try_unopened w (try_entry s) x Hnew).
    eexists _, _,
      [ Printed start_line; Called (NewChrome main_options);
        Printed (except_line x) ].
    split; [reflexivity|]. split; [repeat constructor; discriminate|].
    unfold finalized. cbn [driver log emit tick try_entry set_driver].
    now rewrite app_nil_r, <- !app_assoc.
  - destruct (main_try w main_options (try_entry s)) as [[code|e] s1] eqn:Hrun;
      pose proof (opens_main_try w _ _ _ Hrun Hnew) as Hdriver;
      destruct (main_try_never_quits w _ _ _ _ Hrun) as (added & Hlog & HP);
      cbn [log try_entry set_driver emit] in Hlog.
    + exists code, (finalized s1), (Printed start_line :: added).
      split; [reflexivity|]. split; [constructor; [discriminate | exact HP]|].
      unfold finalized. rewrite Hdriver.
      cbn [effect set_session tick emit log]. rewrite Hlog.
      now rewrite <- !app_assoc.
    + exists 1%Z, (finalized (emit (Printed (except_line e)) s1)),
        (Printed start_line :: added ++ [ Printed (except_line e) ]).
      split; [reflexivity|]. split.
      * constructor; [discriminate|]. apply Forall_app. split; [exact HP|].
        repeat constructor. discriminate.
      * unfold finalized. cbn [driver emit]. rewrite Hdriver.
        cbn [effect set_session tick emit log]. rewrite Hlog.
        rewrite <- !app_assoc. simpl. now rewrite <- !app_assoc.
Qed.

(** ** The way to the directions view *)

Lemma bind_returned {A B} (m : M A) (f : A → M B) s b s' :
  (m ≫= f) s = (Returns b, s') →
  ∃ a s1, m s = (Returns a, s1) ∧ f a s1 = (Returns b, s').
Proof.
  intros Hrun. apply bind_cases in Hrun as [? | (x & _ & [=])]. assumption.
Qed.

Lemma act_returned w a s u s' :
  act w a s = (Returns u, s') → log s' = log s ++ [ Called a ].
Proof.
  intros Hrun. apply act_cases in Hrun as [(_ & _ & ->) | (x & [=] & _)].
  now rewrite log_effect.
Qed.

Lemma print_returned line s u s' :
  print line s = (Returns u, s') → log s' = log s ++ [ Printed line ].
Proof. now intros [= _ <-]. Qed.

Lemma wait_returned w {A} `{Truthy A} timeout (method : Page → A) s v s' :
  until w timeout method s = (Returns v, s') →
  log s' = log s ∧ v = method (page w (clock s')) ∧ truth v = true.
Proof.
  unfold until. intros Hrun.
  apply until_from_returned in Hrun as (k & _ & -> & -> & Ht & _).
  rewrite clock_ticks. split; [apply (proj_ticks log (λ _, eq_refl)) | done].
Qed.

Lemma click_returned w v s u s' :
  click w v s = (Returns u, s') →
  ∃ e, v = Val e ∧ log s' = log s ++ [ Called (Click e) ].
Proof.
  destruct v as [e|]; [|discriminate]. intros Hrun. exists e.
  split; [reflexivity | exact (act_returned _ _ _ _ _ Hrun)].
Qed.

Lemma clear_returned w v s u s' :
  clear w v s = (Returns u, s') →
  ∃ e, v = Val e ∧ log s' = log s ++ [ Called (Clear e) ].
Proof.
  destruct v as [e|]; [|discriminate]. intros Hrun. exists e.
  split; [reflexivity | exact (act_returned _ _ _ _ _ Hrun)].
Qed.

Lemma send_keys_returned w e k s u s' :
  send_keys w (Val e) k s = (Returns u, s') →
  log s' = log s ++ [ Called (SendKeys e k) ].
Proof. apply act_returned. Qed.

(** What a returning [try_click_optional] has logged: at most one click. *)
Lemma try_click_optional_returned w driver locators timeout s b s' :
  try_click_optional w driver locators timeout s = (Returns b, s') →
  ∃ clicked,
    log s' = log s ++ clicked
    ∧ (clicked = [] ∧ b = false ∨ ∃ e, clicked = [ Called (Click e) ]).
Proof.
  intros Hrun.
  pose proof (try_click_optional_run w driver locators timeout s) as Hcases.
  destruct (wait_for_any_clickable_element w driver locators timeout s)
    as [[v|x] s1] eqn:Hwait.
  - apply wait_returned in Hwait as (Hlog & _).
    destruct Hcases as (e & _ & Hcases).
    destruct (act w (Click e) s1) as [r s2] eqn:Hact.
    exists [ Called (Click e) ]. split; [|eauto].
    assert (log s2 = log s1 ++ [ Called (Click e) ]) as Hs2.
    { apply act_cases in Hact as [(_ & _ & ->) | (y & _ & _ & ->)];
        now rewrite ?log_effect. }
    destruct r as [[]|y]; rewrite Hcases in Hrun.
    + injection Hrun as _ <-. congruence.
    + destruct (isinstance y TimeoutException); [|discriminate].
      injection Hrun as _ <-. congruence.
  - rewrite Hcases in Hrun. injection Hrun as <- <-.
    exists []. split; [|now left]. rewrite app_nil_r.
    unfold wait_for_any_clickable_element, until in Hwait.
    apply until_from_raised in Hwait as (_ & -> & _).
    apply (proj_ticks log (λ _, eq_refl)).
Qed.

(** X13. Whenever [main] reaches the directions view, what it has done so
    far is exactly this, in this order: start Chrome with the given options,
    open the Maps site, click at most one consent button, click the
    Directions button, then clear the start input, type "Koramangala,
    Bangalore" and ENTER into it, and likewise "91 Springboard, Vikhroli"
    and ENTER into the destination input; and the URL of the page then has
    "/dir/" in it. *)
Theorem way_to_directions_view w options s driver s' :
  main_open_directions w options s = (Returns driver, s') →
  ∃ consent button start_input destination_input,
    (consent = [] ∨ ∃ c, consent = [ Called (Click c) ])
    ∧ log s'
      = log s
        ++ [ Called (NewChrome options);
             Printed "Opening Google Maps...";
             Called (Get "https://maps.google.com") ]
        ++ consent
        ++ [ Called (Click button);
             Printed "Clicked Directions.";
             Called (Clear start_input);
             Called (SendKeys start_input (Text "Koramangala, Bangalore"));
             Called (SendKeys start_input ENTER);
             Printed "Entered starting location.";
             Called (Clear destination_input);
             Called (SendKeys destination_input
                       (Text "91 Springboard, Vikhroli"));
             Called (SendKeys destination_input ENTER);
             Printed "Entered destination." ]
    ∧ driver = ChromeDriver options
    ∧ Str.contains "/dir/" (current_url (page w (clock s'))) = true.
Proof.
  unfold main_open_directions, Chrome. intros Hrun.
  apply bind_returned in Hrun as (d & s1 & Hchrome & Hrun).
  apply bind_returned in Hchrome as ([] & s0 & Hnew & [= <- <-]).
  apply act_returned in Hnew.
  apply bind_returned in Hrun as ([] & s2 & [= <-] & Hrun).
  apply bind_returned in Hrun as ([] & s3 & Hl3 & Hrun).
  apply print_returned in Hl3. cbn [log set_driver] in Hl3.
  apply bind_returned in Hrun as ([] & s4 & Hl4 & Hrun).
  apply act_returned in Hl4.
  apply bind_returned in Hrun as (b & s5 & Hl5 & Hrun).
  apply try_click_optional_returned in Hl5 as (consent & Hl5 & Hconsent).
  apply bind_returned in Hrun as (v6 & s6 & Hl6 & Hrun).
  apply wait_returned in Hl6 as (Hl6 & _).
  apply bind_returned in Hrun as ([] & s7 & Hl7 & Hrun).
  apply click_returned in Hl7 as (button & -> & Hl7).
  apply bind_returned in Hrun as ([] & s8 & Hl8 & Hrun).
  apply print_returned in Hl8.
  apply bind_returned in Hrun as (v9 & s9 & Hl9 & Hrun).
  apply wait_returned in Hl9 as (Hl9 & _).
  apply bind_returned in Hrun as ([] & s10 & Hl10 & Hrun).
  apply clear_returned in Hl10 as (start_input & -> & Hl10).
  apply bind_returned in Hrun as ([] & s11 & Hl11 & Hrun).
  apply send_keys_returned in Hl11.
  apply bind_returned in Hrun as ([] & s12 & Hl12 & Hrun).
  apply send_keys_returned in Hl12.
  apply bind_returned in Hrun as ([] & s13 & Hl13 & Hrun).
  apply print_returned in Hl13.
  apply bind_returned in Hrun as (v14 & s14 & Hl14 & Hrun).
  apply wait_returned in Hl14 as (Hl14 & _).
  apply bind_returned in Hrun as ([] & s15 & Hl15 & Hrun).
  apply clear_returned in Hl15 as (destination_input & -> & Hl15).
  apply bind_returned in Hrun as ([] & s16 & Hl16 & Hrun).
  apply send_keys_returned in Hl16.
  apply bind_returned in Hrun as ([] & s17 & Hl17 & Hrun).
  apply send_keys_returned in Hl17.
  apply bind_returned in Hrun as ([] & s18 & Hl18 & Hrun).
  apply print_returned in Hl18.
  apply bind_returned in Hrun as (v19 & s19 & Hl19 & [= <- <-]).
  apply wait_returned in Hl19 as (Hl19 & Hv19 & Hurl).
  exists consent, button, start_input, destination_input.
  split; [|split; [|split; [reflexivity|]]].
  - destruct Hconsent as [[-> _] | ?]; auto.
  - rewrite Hl19, Hl18, Hl17, Hl16, Hl15, Hl14, Hl13, Hl12, Hl11, Hl10, Hl9,
      Hl8, Hl7, Hl6, Hl5, Hl4, Hl3, Hnew.
    rewrite <- !app_assoc. reflexivity.
  - now rewrite <- Hv19.
Qed.

(** X14. When a route has been selected, the card clicked is the first of
    the route cards on the page at the first poll of the 30-unit wait that
    shows any; the click is the one call made since the directions view was
    reached. *)
Theorem first_route_card_is_clicked w options s driver s' :
  main_select_route w options s = (Returns driver, s') →
  ∃ s1 k card cards,
    main_open_directions w options s = (Returns driver, s1)
    ∧ k ≤ polls w 30
    ∧ (∀ j, j < k →
            find_elements (page w (clock s1 + j)) route_cards_locator = [])
    ∧ find_elements (page w (clock s1 + k)) route_cards_locator = card :: cards
    ∧ log s'
      = log s1 ++ [ Called (Click card);
                    Printed "Selected first available route." ]
    ∧ clock s' = clock s1 + k + 1.
Proof.
  unfold main_select_route. intros Hrun.
  apply bind_returned in Hrun as (d & s1 & Hopen & Hrun).
  apply bind_returned in Hrun as (v & s2 & Hwait & Hrun).
  unfold wait_for_any_elements, until in Hwait.
  apply until_from_returned in Hwait as (k & Hk & -> & -> & Ht & Hbefore).
  unfold polled in *. simpl in Ht, Hrun.
  destruct (find_elements (page w (clock s1 + k)) route_cards_locator)
    as [|card cards] eqn:Hcards; [discriminate|].
  simpl in Hrun.
  apply bind_returned in Hrun as ([] & s3 & [= <-] & Hrun).
  apply bind_returned in Hrun as (c & s4 & [= <- <-] & Hrun).
  apply bind_returned in Hrun as ([] & s5 & Hclick & Hrun).
  apply bind_returned in Hrun as ([] & s6 & Hprint & [= <- <-]).
  injection Hprint as <-.
  apply act_cases in Hclick as [(_ & _ & ->) | (x & [=] & _)].
  exists s1, k, card, cards. split; [exact Hopen|]. split; [exact Hk|].
  split; [|split; [exact Hcards|split]].
  - intros j Hj. specialize (Hbefore j Hj). simpl in Hbefore.
    destruct (find_elements (page w (clock s1 + j)) route_cards_locator);
      [reflexivity | discriminate Hbefore].
  - simpl. rewrite (proj_ticks log (λ _, eq_refl)). now rewrite <- app_assoc.
  - simpl. rewrite clock_ticks. lia.
Qed.

(** ** The further statements on the mock page layer *)

Lemma clickable_wait_is_no_quicker_witness :
  (∃ v' s'',
      wait_for_any_element Mock.happy Mock.chrome directions_buttons 25
        Mock.start
      = (Returns v', s'')
      ∧ clock s'' ≤ clock Mock.start)
  ∧ wait_for_any_clickable_element Mock.happy Mock.chrome consent_buttons 5
      Mock.start
    = (Raises timeout_error, Nat.iter 10 tick Mock.start).
Proof.
  split.
  - apply (proj1 (clickable_wait_is_no_quicker
                    Mock.happy Mock.chrome directions_buttons 25 Mock.start)
             (Val 1) Mock.start).
    reflexivity.
  - apply (proj2 (clickable_wait_is_no_quicker
                    Mock.happy Mock.chrome consent_buttons 5 Mock.start)).
    reflexivity.
Defined.

Lemma longer_timeout_keeps_result_witness :
  wait_for_any_element Mock.happy Mock.chrome start_inputs 25 Mock.start
  = (Returns (Val 2), Mock.start).
Proof.
  apply (proj1 (longer_timeout_keeps_result
                  Mock.happy Mock.chrome start_inputs 5 25 Mock.start
                  (proj1 (Nat.leb_le 10 50) eq_refl))).
  reflexivity.
Defined.

Lemma try_click_optional_failed_click_witness :
  try_click_optional Faults.blocked_click Mock.chrome directions_buttons 5
    Mock.start
  = (Raises (Exn WebDriverException "element click intercepted"),
     tick (emit (Called (Click 1)) Mock.start))
  ∧ try_click_optional Faults.slow_click Mock.chrome directions_buttons 5
      Mock.start
    = (Returns false, tick (emit (Called (Click 1)) Mock.start)).
Proof.
  split.
  - exact (try_click_optional_failed_click
             Faults.blocked_click Mock.chrome directions_buttons 5 Mock.start
             1 Mock.start (Exn WebDriverException "element click intercepted")
             eq_refl eq_refl).
  - exact (try_click_optional_failed_click
             Faults.slow_click Mock.chrome directions_buttons 5 Mock.start
             1 Mock.start (Exn TimeoutException "timeout: renderer")
             eq_refl eq_refl).
Defined.

Lemma step_elements_or_fallback_witness :
  main_step_elements Mock.no_steps Mock.chrome Mock.start
  = (Returns [], emit (Printed no_steps_line) (Nat.iter 120 tick Mock.start))
  ∧ main_step_elements Mock.happy Mock.chrome Mock.start
    = (Returns [20; 21; 22; 23; 24; 25],
       tick (emit (Called (FindElements step_locator)) Mock.start))
  ∧ main_step_elements Faults.lost_window Mock.chrome Mock.start
    = (Raises (Exn WebDriverException "no such window"),
       tick (emit (Called (FindElements step_locator)) Mock.start)).
Proof.
  split; [|split].
  - apply (proj1 (step_elements_or_fallback
                    Mock.no_steps Mock.chrome Mock.start)).
    intros k _. reflexivity.
  - exact (proj1 (proj2 (step_elements_or_fallback
                           Mock.happy Mock.chrome Mock.start))
             [20; 21; 22; 23; 24; 25] Mock.start eq_refl eq_refl).
  - exact (proj2 (proj2 (step_elements_or_fallback
                           Faults.lost_window Mock.chrome Mock.start))
             [20; 21; 22; 23; 24; 25] Mock.start
             (Exn WebDriverException "no such window") eq_refl eq_refl).
Defined.

Lemma main_raises_nothing_of_its_own_witness :
  Exn Exception "Permission denied" = timeout_error
  ∨ (∃ t a,
        raises Mock.locked_file t a = Some (Exn Exception "Permission denied"))
  ∨ (∃ value, Exn Exception "Permission denied" = IllegalCharacterError value).
Proof.
  apply (main_raises_nothing_of_its_own Mock.locked_file
           (try_entry Mock.start) (Exn Exception "Permission denied")
           (main_try Mock.locked_file main_options (try_entry Mock.start)).2).
  vm_compute. reflexivity.
Defined.

Lemma way_to_directions_view_witness :
  Mock.chrome = ChromeDriver main_options
  ∧ Str.contains "/dir/"
      (current_url
         (page Mock.happy
            (clock (main_open_directions Mock.happy main_options Mock.start).2)))
    = true.
Proof.
  destruct (way_to_directions_view Mock.happy main_options Mock.start
              Mock.chrome
              (main_open_directions Mock.happy main_options Mock.start).2)
    as (consent & button & start_input & destination_input & _ & _ & Hd & Hurl).
  - vm_compute. reflexivity.
  - split; [exact Hd | exact Hurl].
Defined.

Lemma first_route_card_is_clicked_witness :
  ∃ s1 card,
    main_open_directions Mock.happy main_options Mock.start
    = (Returns Mock.chrome, s1)
    ∧ log (main_select_route Mock.happy main_options Mock.start).2
      = log s1 ++ [ Called (Click card);
                    Printed "Selected first available route." ].
Proof.
  destruct (first_route_card_is_clicked Mock.happy main_options Mock.start
              Mock.chrome
              (main_select_route Mock.happy main_options Mock.start).2)
    as (s1 & k & card & cards & Hopen & _ & _ & _ & Hlog & _).
  - vm_compute. reflexivity.
  - exists s1, card. split; [exact Hopen | exact Hlog].
Defined.
